(** * web-scraper/scraper.py: a shallow embedding and its properties

    The scraper fetches a paginated listing with bounded retries, extracts
    one record per [div.quote] element and appends every page's batch to a
    CSV file and/or an SQLite table.

    The embedding follows [scraper.py] function by function and keeps its
    names. Effects are threaded through a state-and-exception monad over a
    [World] (text files, database files, oracle cursors and a trace of the
    effects performed). What the script obtains from outside is a parameter:
    - the remote server, the random generator and the user's Ctrl-C are the
      fields of [Env];
    - [requests], [bs4] with soupsieve, [csv], [sqlite3], [os.path] and
      [time] are modelled by what the script uses of them, each model
      stating what it stands for;
    - [urllib.parse.urljoin] and [BeautifulSoup(html, "lxml")], which
      returns a document or raises, are section variables;
    - Python floats are an abstract type with the operations the script
      applies to them ([PyFloat]).

    What the model leaves out: logging, the session headers and the
    argument parser, none of which decides control flow here; the
    directory of a destination (a missing file can always be created);
    SQLite type affinity; a CSV path and an SQLite path that name the same
    file (text files and database files are two stores); the upper end of
    SQLite's rowids (rowids are integers without bound). A [str] is held
    as the bytes of its UTF-8 encoding, so that the size of a file is the
    length of its content. The [while True] loop takes fuel, and a run
    that needs more returns [OutOfFuel]. *)

From Stdlib Require Import ZArith QArith String Ascii List Bool Lia.
From stdpp Require Import base option list gmap strings pretty.

Local Open Scope string_scope.
Local Open Scope Z_scope.
Local Open Scope list_scope.

(** ** Python values shared by the whole script *)

Module Py.

(** The exception classes the script can meet. [KeyboardInterrupt] derives
    from [BaseException] only; every other class here derives from
    [Exception]. *)
Inductive exc_class :=
| KeyboardInterrupt
| RuntimeError
| ValueError
| OverflowError
| KeyError
| AttributeError
| PermissionError
| FileNotFoundError
| HTTPError
| ConnectionError
| Timeout
| OperationalError
| IntegrityError
| DatabaseError
| UnicodeEncodeError.

Definition exc_class_eqb (a b : exc_class) : bool :=
  match a, b with
  | KeyboardInterrupt, KeyboardInterrupt | RuntimeError, RuntimeError
  | ValueError, ValueError | OverflowError, OverflowError
  | KeyError, KeyError | AttributeError, AttributeError
  | PermissionError, PermissionError | HTTPError, HTTPError
  | FileNotFoundError, FileNotFoundError
  | ConnectionError, ConnectionError | Timeout, Timeout
  | OperationalError, OperationalError | IntegrityError, IntegrityError
  | DatabaseError, DatabaseError | UnicodeEncodeError, UnicodeEncodeError => true
  | _, _ => false
  end.

(** [isinstance(e, Exception)] *)
Definition is_Exception (c : exc_class) : bool :=
  match c with
  | KeyboardInterrupt => false
  | _ => true
  end.

(** [requests.exceptions.RequestException] and its subclasses: what a single
    transport attempt raises on a bad status, a connection failure or a
    timeout. *)
Definition is_RequestException (c : exc_class) : bool :=
  match c with
  | HTTPError | ConnectionError | Timeout => true
  | _ => false
  end.

(** An exception object: its class, its message and its [__cause__]. *)
#[local] Unset Elimination Schemes.
Inductive exn :=
| Exn (cls : exc_class) (msg : string) (cause : option exn).
#[local] Set Elimination Schemes.

Definition exn_class (e : exn) : exc_class := let 'Exn c _ _ := e in c.
Definition exn_msg (e : exn) : string := let 'Exn _ m _ := e in m.
Definition exn_cause (e : exn) : option exn := let 'Exn _ _ c := e in c.

(** The result of running a piece of Python: a value, a raised exception,
    or (for the unbounded [while True] only) the fuel ran out. *)
Inductive res (A : Type) :=
| Ok (a : A)
| Raise (e : exn)
| OutOfFuel.
Arguments Ok {A} a.
Arguments Raise {A} e.
Arguments OutOfFuel {A}.

Definition res_bind {A B} (r : res A) (k : A → res B) : res B :=
  match r with
  | Ok a => k a
  | Raise e => Raise e
  | OutOfFuel => OutOfFuel
  end.

(** A [str] is a sequence of code points; it is held here as the bytes of
    its UTF-8 encoding. The white space of [str.isspace], which
    [str.strip()] removes, is:
    - of one byte: tab, LF, VT, FF, CR, the four separators 0x1c-0x1f and
      the space; *)
Definition is_space (c : ascii) : bool :=
  let n := nat_of_ascii c in
  ((9 <=? n) && (n <=? 13) || (28 <=? n) && (n <=? 32))%nat.

(** - of two bytes: U+0085 (C2 85) and U+00A0 (C2 A0); *)
Definition is_space2 (a b : ascii) : bool :=
  let x := nat_of_ascii a in
  let y := nat_of_ascii b in
  ((x =? 194) && ((y =? 133) || (y =? 160)))%nat.

(** - of three bytes: U+1680 (E1 9A 80), U+2000..U+200A (E2 80 80..8A),
      U+2028, U+2029, U+202F (E2 80 A8, A9, AF), U+205F (E2 81 9F) and
      U+3000 (E3 80 80). *)
Definition is_space3 (a b c : ascii) : bool :=
  let x := nat_of_ascii a in
  let y := nat_of_ascii b in
  let z := nat_of_ascii c in
  ((x =? 225) && (y =? 154) && (z =? 128)
   || (x =? 226) && (y =? 128)
      && ((128 <=? z) && (z <=? 138) || (z =? 168) || (z =? 169) || (z =? 175))
   || (x =? 226) && (y =? 129) && (z =? 159)
   || (x =? 227) && (y =? 128) && (z =? 128))%nat.

(** [str.lstrip()]: the white space at the front goes, code point by code
    point. *)
Fixpoint lstrip (s : string) : string :=
  match s with
  | EmptyString => EmptyString
  | String a s1 =>
      if is_space a then lstrip s1
      else
        match s1 with
        | EmptyString => s
        | String b s2 =>
            if is_space2 a b then lstrip s2
            else
              match s2 with
              | EmptyString => s
              | String c s3 => if is_space3 a b c then lstrip s3 else s
              end
        end
  end.

Fixpoint rev_onto (s acc : string) : string :=
  match s with
  | EmptyString => acc
  | String c s' => rev_onto s' (String c acc)
  end.

(** The bytes of [s], last first. *)
Definition reverse (s : string) : string := rev_onto s EmptyString.

(** [lstrip] on reversed bytes: the bytes of a code point come last
    first. *)
Fixpoint lstrip_reversed (s : string) : string :=
  match s with
  | EmptyString => EmptyString
  | String a s1 =>
      if is_space a then lstrip_reversed s1
      else
        match s1 with
        | EmptyString => s
        | String b s2 =>
            if is_space2 b a then lstrip_reversed s2
            else
              match s2 with
              | EmptyString => s
              | String c s3 => if is_space3 c b a then lstrip_reversed s3 else s
              end
        end
  end.

(** [str.rstrip()]: the white space at the end goes. *)
Definition rstrip (s : string) : string := reverse (lstrip_reversed (reverse s)).

(** [str.strip()] *)
Definition strip (s : string) : string := rstrip (lstrip s).

(** The [str] holds a surrogate code point (U+D800..U+DFFF), for which
    UTF-8 has no encoding: the bytes its number would take are ED A0..BF
    and one more. *)
Fixpoint has_surrogate (s : string) : bool :=
  match s with
  | EmptyString => false
  | String a s1 =>
      match s1 with
      | EmptyString => false
      | String b _ =>
          ((nat_of_ascii a =? 237)
           && (160 <=? nat_of_ascii b) && (nat_of_ascii b <=? 191))%nat
          || has_surrogate s1
      end
  end.

(** Truth value of a [str]: non-empty. *)
Definition str_truthy (s : string) : bool :=
  match s with
  | EmptyString => false
  | _ => true
  end.

(** Truth value of an [Optional[str]]: neither [None] nor empty. *)
Definition opt_str_truthy (o : option string) : bool :=
  match o with
  | Some s => str_truthy s
  | None => false
  end.

(** [sep.join(parts)] *)
Fixpoint join (sep : string) (parts : list string) : string :=
  match parts with
  | [] => EmptyString
  | [p] => p
  | p :: rest => p +:+ sep +:+ join sep rest
  end.

(** The float operations of the script. [f_pow] is [x ** n], which raises
    [OverflowError] (here [None]) when the result is out of range;
    [f_sleep_error d] is the exception class [time.sleep(d)] raises at once
    ([ValueError] for a negative or NaN length, [OverflowError] for one too
    large), or [None] when it goes to sleep. *)
Class PyFloat (F : Type) := {
  f_zero : F;
  f_0_15 : F;
  f_0_2 : F;
  f_1_5 : F;
  f_add : F → F → F;
  f_sub : F → F → F;
  f_mul : F → F → F;
  f_pow : F → Z → option F;
  f_ltb : F → F → bool;
  f_truthy : F → bool;
  f_sleep_error : F → option exc_class;
}.

(** [max(a, b)]: the first argument unless the second is greater. *)
Definition f_max {F} `{PyFloat F} (a b : F) : F :=
  if f_ltb a b then b else a.

End Py.
Import Py.

(** ** The world outside the script *)

(** *** requests *)

(** What the script reads of a [requests.Response]. *)
Record response := {
  status_code : Z;
  reason : string;
  resp_url : string;
  text : string;
}.

(** [session.get(url, timeout=TIMEOUT)] either returns a response (of any
    status) or raises: [ConnectionError], [Timeout], or [KeyboardInterrupt]
    when the user interrupts the round trip. *)
Inductive get_outcome :=
| GetReturns (r : response)
| GetRaises (e : exn).

(** [Response.raise_for_status] of requests: an [HTTPError] for a status in
    400..599, nothing otherwise. *)
Definition http_error_msg (r : response) : option string :=
  if (400 <=? status_code r) && (status_code r <? 500) then
    Some (pretty (status_code r) +:+ " Client Error: " +:+ reason r
          +:+ " for url: " +:+ resp_url r)
  else if (500 <=? status_code r) && (status_code r <? 600) then
    Some (pretty (status_code r) +:+ " Server Error: " +:+ reason r
          +:+ " for url: " +:+ resp_url r)
  else None.

Definition raise_for_status (r : response) : res unit :=
  match http_error_msg r with
  | Some m => Raise (Exn HTTPError m None)
  | None => Ok tt
  end.

(** *** The file system seen through [open], [os.path.exists] and
    [os.path.getsize] *)

Record file := {
  file_writable : bool;
  file_data : string;
}.

(** *** sqlite3 *)

Inductive sqlval :=
| SqlNull
| SqlInt (z : Z)
| SqlText (s : string).

(** The declared type of a column; the columns of SQLite's own
    [sqlite_sequence] have none. *)
Inductive sqltype := INTEGER | TEXT | UNTYPED.

Record column := {
  col_name : string;
  col_type : sqltype;
  col_not_null : bool;
  col_primary_key : bool;
  col_autoincrement : bool;
}.

(** A table: its declared columns, its rows (one value per column, in
    insertion order) and the largest rowid among its rows, 0 for an empty
    table. *)
Record table := {
  tbl_columns : list column;
  tbl_rows : list (list sqlval);
  tbl_last_rowid : Z;
}.

(** A path given to [sqlite3.connect] holds a database or some other
    file. *)
Inductive dbfile :=
| NotADatabase
| Database (tables : gmap string table).

(** An SQL statement, as far as the script writes any. *)
Inductive stmt :=
| CreateTable (if_not_exists : bool) (name : string) (cols : list column)
| InsertInto (name : string) (cols : list string) (params : list sqlval).

Module Sqlite.

Definition has_column (t : table) (c : string) : bool :=
  existsb (fun col => String.eqb (col_name col) c) (tbl_columns t).

Fixpoint assoc {A} (k : string) (l : list (string * A)) : option A :=
  match l with
  | [] => None
  | (k', v) :: l' => if String.eqb k k' then Some v else assoc k l'
  end.

(** The value an INSERT stores in column [col]: the bound parameter when
    the column is listed, the next rowid for an omitted INTEGER PRIMARY KEY,
    NULL otherwise. *)
Definition insert_value (given : list (string * sqlval)) (rowid : Z)
    (col : column) : sqlval :=
  match assoc (col_name col) given with
  | Some v => v
  | None =>
      match col_type col, col_primary_key col with
      | INTEGER, true => SqlInt rowid
      | _, _ => SqlNull
      end
  end.

Definition violates_not_null (col : column) (v : sqlval) : bool :=
  col_not_null col && match v with SqlNull => true | _ => false end.

(** SQLite's own table [sqlite_sequence(name, seq)], which it creates with
    the first table that has an AUTOINCREMENT column, and in which it keeps
    for each such table the largest rowid the table has ever held. *)
Definition sequence_columns : list column :=
  [ {| col_name := "name"; col_type := UNTYPED; col_not_null := false;
       col_primary_key := false; col_autoincrement := false |};
    {| col_name := "seq"; col_type := UNTYPED; col_not_null := false;
       col_primary_key := false; col_autoincrement := false |} ].

Definition empty_sequence : table :=
  {| tbl_columns := sequence_columns; tbl_rows := []; tbl_last_rowid := 0 |}.

(** The database with [sqlite_sequence] added if it has none. *)
Definition with_sequence (db : gmap string table) : gmap string table :=
  match db !! "sqlite_sequence" with
  | Some _ => db
  | None => <["sqlite_sequence" := empty_sequence]> db
  end.

Definition autoincrement (cols : list column) : bool :=
  existsb col_autoincrement cols.


(** The [seq] of the first row for [name], 0 when none of the rows is for
    [name] or when that [seq] is no integer. *)
Fixpoint seq_in (rows : list (list sqlval)) (name : string) : Z :=
  match rows with
  | [] => 0
  | row :: rows' =>
      match row with
      | SqlText n :: rest =>
          if String.eqb n name
          then match rest with
               | SqlInt z :: _ => z
               | _ => 0
               end
          else seq_in rows' name
      | _ => seq_in rows' name
      end
  end.

(** The [seq] that [sqlite_sequence] holds for the table [name]. *)
Definition seq_of (db : gmap string table) (name : string) : Z :=
  match db !! "sqlite_sequence" with
  | Some s => seq_in (tbl_rows s) name
  | None => 0
  end.

(** The first row for [name] replaced by [(name, seq)]; [None] when no row
    is for [name]. *)
Fixpoint update_seq (rows : list (list sqlval)) (name : string) (seq : Z)
  : option (list (list sqlval)) :=
  match rows with
  | [] => None
  | row :: rows' =>
      match row with
      | SqlText n :: _ =>
          if String.eqb n name then Some ([SqlText name; SqlInt seq] :: rows')
          else option_map (cons row) (update_seq rows' name seq)
      | _ => option_map (cons row) (update_seq rows' name seq)
      end
  end.

(** [sqlite_sequence] after a row with rowid [seq] went into the table
    [name]: the row for [name] is updated, or added when there is none. *)
Definition record_seq (name : string) (seq : Z) (db : gmap string table)
  : gmap string table :=
  let s := default empty_sequence (db !! "sqlite_sequence") in
  <["sqlite_sequence" :=
      match update_seq (tbl_rows s) name seq with
      | Some rows => {| tbl_columns := tbl_columns s; tbl_rows := rows;
                        tbl_last_rowid := tbl_last_rowid s |}
      | None => {| tbl_columns := tbl_columns s;
                   tbl_rows := tbl_rows s ++ [[SqlText name; SqlInt seq]];
                   tbl_last_rowid := tbl_last_rowid s + 1 |}
      end]> db.

(** The rowid of the next row of table [t], called [name]: one more than
    the largest in the table, and with AUTOINCREMENT also more than the
    largest the table ever held. *)
Definition next_rowid (db : gmap string table) (name : string) (t : table) : Z :=
  if autoincrement (tbl_columns t)
  then Z.max (tbl_last_rowid t) (seq_of db name) + 1
  else tbl_last_rowid t + 1.

(** One statement against the tables of a database.
    - CREATE TABLE: an existing name is an error, or nothing happens under
      IF NOT EXISTS; otherwise the empty table is added, and with it
      [sqlite_sequence] when a column is AUTOINCREMENT and the database has
      none yet.
    - INSERT: the table and every listed column must exist and no NOT NULL
      column may receive NULL; the row is appended, and for a table with
      AUTOINCREMENT its rowid is recorded in [sqlite_sequence]. *)
Definition execute (s : stmt) (db : gmap string table) : res (gmap string table) :=
  match s with
  | CreateTable if_not_exists name cols =>
      match db !! name with
      | Some _ =>
          if if_not_exists then Ok db
          else Raise (Exn OperationalError ("table " +:+ name +:+ " already exists") None)
      | None =>
          Ok (<[name := {| tbl_columns := cols; tbl_rows := []; tbl_last_rowid := 0 |}]>
                (if autoincrement cols then with_sequence db else db))
      end
  | InsertInto name cols params =>
      match db !! name with
      | None => Raise (Exn OperationalError ("no such table: " +:+ name) None)
      | Some t =>
          match List.find (fun c => negb (has_column t c)) cols with
          | Some c =>
              Raise (Exn OperationalError
                       ("table " +:+ name +:+ " has no column named " +:+ c) None)
          | None =>
              let rowid := next_rowid db name t in
              let row := map (insert_value (combine cols params) rowid) (tbl_columns t) in
              match List.find (fun cv => violates_not_null (fst cv) (snd cv))
                              (combine (tbl_columns t) row) with
              | Some (col, _) =>
                  Raise (Exn IntegrityError
                           ("NOT NULL constraint failed: " +:+ name +:+ "."
                            +:+ col_name col) None)
              | None =>
                  let db' := <[name := {| tbl_columns := tbl_columns t;
                                          tbl_rows := tbl_rows t ++ [row];
                                          tbl_last_rowid := rowid |}]> db in
                  Ok (if autoincrement (tbl_columns t) then record_seq name rowid db'
                      else db')
              end
          end
      end
  end.

(** [cursor.executemany(sql, seq)]: the statement once per parameter tuple,
    stopping at the first error. *)
Fixpoint executemany (name : string) (cols : list string)
    (seq : list (list sqlval)) (db : gmap string table) : res (gmap string table) :=
  match seq with
  | [] => Ok db
  | params :: seq' =>
      res_bind (execute (InsertInto name cols params) db) (executemany name cols seq')
  end.

End Sqlite.

(** *** bs4 with soupsieve *)

Module Bs4.

(** A parsed document. [classes] is the [class] attribute as bs4 keeps it,
    split into its names; [attrs] holds the other attributes. A [Comment]
    stands for every string that [get_text] leaves out (comments, the
    content of script and style elements). Tag names are lower case, as the
    parser delivers them. *)
#[local] Unset Elimination Schemes.
Inductive node :=
| NavigableString (s : string)
| Comment (s : string)
| Tag (name : string) (classes : list string) (attrs : gmap string string)
      (children : list node).
#[local] Set Elimination Schemes.

(** A [Tag] object: the element with the chain of its parents (name and
    classes of each, nearest first), which soupsieve walks when a selector
    has a descendant combinator. *)
Record tag := {
  tag_parents : list (string * list string);
  tag_name : string;
  tag_classes : list string;
  tag_attrs : gmap string string;
  tag_contents : list node;
}.

(** All elements below a node, the node included, in document order. *)
Fixpoint node_tags (parents : list (string * list string)) (n : node) : list tag :=
  match n with
  | Tag name classes attrs children =>
      {| tag_parents := parents; tag_name := name; tag_classes := classes;
         tag_attrs := attrs; tag_contents := children |}
      :: flat_map (node_tags ((name, classes) :: parents)) children
  | _ => []
  end.

(** [tag.descendants], elements only. *)
Definition descendants (t : tag) : list tag :=
  flat_map (node_tags ((tag_name t, tag_classes t) :: tag_parents t))
           (tag_contents t).

(** A compound selector [type.class] (either part optional) and a complex
    selector: compounds joined by the descendant combinator. *)
Record compound := {
  sel_type : option string;
  sel_class : option string;
}.

Definition matches_compound (c : compound) (name : string) (classes : list string) : bool :=
  match sel_type c with
  | Some ty => String.eqb ty name
  | None => true
  end &&
  match sel_class c with
  | Some cl => existsb (String.eqb cl) classes
  | None => true
  end.

(** The compounds left of the subject, nearest first, against the chain of
    parents: each must match some ancestor, in order. *)
Fixpoint matches_ancestors (cs : list compound)
    (parents : list (string * list string)) {struct parents} : bool :=
  match cs with
  | [] => true
  | c :: cs' =>
      match parents with
      | [] => false
      | (name, classes) :: parents' =>
          if matches_compound c name classes
          then matches_ancestors cs' parents'
          else matches_ancestors cs parents'
      end
  end.

Definition matches (sel : list compound) (t : tag) : bool :=
  match rev sel with
  | [] => false
  | subject :: before =>
      matches_compound subject (tag_name t) (tag_classes t)
      && matches_ancestors before (tag_parents t)
  end.

(** [tag.select(sel)]: the matching descendants in document order. *)
Definition select (sel : list compound) (t : tag) : list tag :=
  List.filter (matches sel) (descendants t).

(** [tag.select_one(sel)]: the first of them, or [None]. *)
Definition select_one (sel : list compound) (t : tag) : option tag :=
  head (select sel t).

Fixpoint node_strings (n : node) : list string :=
  match n with
  | NavigableString s => [s]
  | Comment _ => []
  | Tag _ _ _ children => flat_map node_strings children
  end.

(** [tag.get_text(strip=True)]: every text string below the tag, stripped,
    the empty ones dropped, joined without separator. *)
Definition get_text (t : tag) : string :=
  join EmptyString
       (List.filter str_truthy (map strip (flat_map node_strings (tag_contents t)))).

(** A parser that accepts every markup and builds the document [build]
    gives for it. *)
Definition accepting (build : string → tag) : string → res tag :=
  fun markup => Ok (build markup).

(** [bool(x)] for [x : Optional[Tag]]; [Tag.__bool__] is always true. *)
Definition tag_truthy (o : option tag) : bool :=
  match o with
  | Some _ => true
  | None => false
  end.

(** [x.get_text(strip=True)] for [x : Optional[Tag]]. *)
Definition call_get_text (o : option tag) : res string :=
  match o with
  | Some t => Ok (get_text t)
  | None => Raise (Exn AttributeError "'NoneType' object has no attribute 'get_text'" None)
  end.

(** [x.get(key)] for [x : Optional[Tag]]. *)
Definition call_get (o : option tag) (key : string) : res (option string) :=
  match o with
  | Some t => Ok (tag_attrs t !! key)
  | None => Raise (Exn AttributeError "'NoneType' object has no attribute 'get'" None)
  end.

Definition div_quote : list compound :=
  [{| sel_type := Some "div"; sel_class := Some "quote" |}].
Definition span_text : list compound :=
  [{| sel_type := Some "span"; sel_class := Some "text" |}].
Definition small_author : list compound :=
  [{| sel_type := Some "small"; sel_class := Some "author" |}].
Definition div_tags_a_tag : list compound :=
  [{| sel_type := Some "div"; sel_class := Some "tags" |};
   {| sel_type := Some "a"; sel_class := Some "tag" |}].
Definition li_next_a : list compound :=
  [{| sel_type := Some "li"; sel_class := Some "next" |};
   {| sel_type := Some "a"; sel_class := None |}].

End Bs4.

(** *** csv *)

Module Csv.

Definition dquote : ascii := ascii_of_nat 34.
Definition CR : ascii := ascii_of_nat 13.
Definition LF : ascii := ascii_of_nat 10.
Definition comma : ascii := ascii_of_nat 44.

Definition special (c : ascii) : bool :=
  Ascii.eqb c comma || Ascii.eqb c dquote || Ascii.eqb c CR || Ascii.eqb c LF.

Fixpoint needs_quotes (s : string) : bool :=
  match s with
  | EmptyString => false
  | String c s' => special c || needs_quotes s'
  end.

Fixpoint double_quotes (s : string) : string :=
  match s with
  | EmptyString => EmptyString
  | String c s' =>
      if Ascii.eqb c dquote then String c (String c (double_quotes s'))
      else String c (double_quotes s')
  end.

(** One field under the excel dialect with QUOTE_MINIMAL. *)
Definition field (s : string) : string :=
  if needs_quotes s
  then String dquote (double_quotes s +:+ String dquote EmptyString)
  else s.

(** [writer.writerow(fields)]: the text written, line terminator included.
    A record of one empty field is written as two quotes. *)
Definition record (fields : list string) : string :=
  match fields with
  | [EmptyString] => String dquote (String dquote EmptyString)
  | _ => join (String comma EmptyString) (map field fields)
  end +:+ String CR (String LF EmptyString).

End Csv.

(** ** The script *)

Section Scraper.

Context {F : Type} `{PyFloat F}.

(** What the run cannot control: the outcome of the n-th [session.get],
    the n-th value of [random.random()], and whether the user interrupts
    the n-th [time.sleep]. *)
Record Env := {
  http_get : nat → string → get_outcome;
  random_random : nat → F;
  sigint_in_sleep : nat → bool;
}.

(** One entry of the trace for each effect the properties count. *)
Inductive event :=
| EvGet (url : string)
| EvSleep (d : F)
| EvInitSqlite (db_path : string)
| EvSaveCsv (csv_path : string) (n_rows : nat)
| EvWriteHeader (csv_path : string) (fieldnames : list string)
| EvSaveSqlite (db_path : string) (n_rows : nat).

(** The state a run reads and writes: how many GETs, random draws and
    sleeps were made so far, the trace in chronological order, the text
    files and the database files. *)
Record World := {
  n_get : nat;
  n_rand : nat;
  n_sleep : nat;
  trace : list event;
  fs : gmap string file;
  dbs : gmap string dbfile;
}.

Definition log_event (e : event) (w : World) : World :=
  {| n_get := n_get w; n_rand := n_rand w; n_sleep := n_sleep w;
     trace := trace w ++ [e]; fs := fs w; dbs := dbs w |}.

Definition set_fs (m : gmap string file) (w : World) : World :=
  {| n_get := n_get w; n_rand := n_rand w; n_sleep := n_sleep w;
     trace := trace w; fs := m; dbs := dbs w |}.

Definition set_dbs (m : gmap string dbfile) (w : World) : World :=
  {| n_get := n_get w; n_rand := n_rand w; n_sleep := n_sleep w;
     trace := trace w; fs := fs w; dbs := m |}.

(** The monad of the script: state passing with exceptions. *)
Definition M (A : Type) : Type := World → res A * World.

Definition ret {A} (a : A) : M A := fun w => (Ok a, w).

Definition raise {A} (e : exn) : M A := fun w => (Raise e, w).

Definition bind {A B} (m : M A) (k : A → M B) : M B :=
  fun w =>
    match m w with
    | (Ok a, w') => k a w'
    | (Raise e, w') => (Raise e, w')
    | (OutOfFuel, w') => (OutOfFuel, w')
    end.

Definition lift {A} (r : res A) : M A := fun w => (r, w).

Definition emit (e : event) : M unit := fun w => (Ok tt, log_event e w).

(** [try: body / except Exception as e: handler e]. A [KeyboardInterrupt]
    is no [Exception] and passes through. *)
Definition try_except_Exception {A} (body : M A) (handler : exn → M A) : M A :=
  fun w =>
    match body w with
    | (Raise e, w') =>
        if is_Exception (exn_class e) then handler e w' else (Raise e, w')
    | r => r
    end.

Notation "'do' x <- c1 ; c2" := (bind c1 (fun x => c2))
  (at level 10, x name, c1 at level 100, c2 at level 200).
Notation "c1 ;; c2" := (bind c1 (fun _ => c2))
  (at level 100, c2 at level 200, right associativity).

Variable env : Env.

(** [BeautifulSoup(html, "lxml")], which returns the parsed document or
    raises (a [UnicodeEncodeError] when the markup holds a surrogate code
    point, which the parser cannot take), and [urllib.parse.urljoin]. *)
Variable BeautifulSoup : string → res Bs4.tag.
Variable urljoin : string → string → string.

Definition BASE_URL : string := "https://quotes.toscrape.com".

(** [session.get(url, timeout=TIMEOUT)] *)
Definition session_get (url : string) : M response :=
  fun w =>
    let w' :=
      {| n_get := S (n_get w); n_rand := n_rand w; n_sleep := n_sleep w;
         trace := trace w ++ [EvGet url]; fs := fs w; dbs := dbs w |} in
    match http_get env (n_get w) url with
    | GetReturns r => (Ok r, w')
    | GetRaises e => (Raise e, w')
    end.

(** [random.uniform(a, b)], which is [a + (b - a) * random()]. *)
Definition random_uniform (a b : F) : M F :=
  fun w =>
    (Ok (f_add a (f_mul (f_sub b a) (random_random env (n_rand w)))),
     {| n_get := n_get w; n_rand := S (n_rand w); n_sleep := n_sleep w;
        trace := trace w; fs := fs w; dbs := dbs w |}).

(** [time.sleep(d)]: refuses a bad length at once, otherwise suspends, and
    the suspension ends early with [KeyboardInterrupt] on Ctrl-C. *)
Definition time_sleep (d : F) : M unit :=
  fun w =>
    match f_sleep_error d with
    | Some c => (Raise (Exn c "sleep length" None), w)
    | None =>
        let w' :=
          {| n_get := n_get w; n_rand := n_rand w; n_sleep := S (n_sleep w);
             trace := trace w ++ [EvSleep d]; fs := fs w; dbs := dbs w |} in
        if sigint_in_sleep env (n_sleep w)
        then (Raise (Exn KeyboardInterrupt EmptyString None), w')
        else (Ok tt, w')
    end.

(** [x ** n] *)
Definition py_pow (x : F) (n : Z) : M F :=
  match f_pow x n with
  | Some p => ret p
  | None => raise (Exn OverflowError "Numerical result out of range" None)
  end.

(** *** Transport: lines 54-56, the body of the [try] in [fetch_html] *)
Definition transport (url : string) : M string :=
  do resp <- session_get url;
  lift (raise_for_status resp) ;;
  ret (text resp).

(** *** [fetch_html] *)

Definition fetch_failed_msg (url : string) (retries : Z) : string :=
  "Failed to fetch " +:+ url +:+ " after " +:+ pretty retries +:+ " retries".

(** The [for attempt in range(1, retries + 1)] loop with [todo] iterations
    to go, followed by the [raise] of line 62. The [except] block ends the
    iteration, so the next iteration is the tail of its handler; an
    exception raised by the handler itself (by [**] or by [time.sleep])
    leaves the function. *)
Fixpoint fetch_html_loop (url : string) (retries : Z) (backoff : F)
    (todo : nat) (attempt : Z) (last_exc : option exn) : M string :=
  match todo with
  | O => raise (Exn RuntimeError (fetch_failed_msg url retries) last_exc)
  | S todo' =>
      try_except_Exception (transport url)
        (fun e =>
           do p <- py_pow backoff attempt;
           do u <- random_uniform f_zero f_0_2;
           time_sleep (f_add p u) ;;
           fetch_html_loop url retries backoff todo' (attempt + 1) (Some e))
  end.

Definition fetch_html (url : string) (retries : Z) (backoff : F) : M string :=
  fetch_html_loop url retries backoff (Z.to_nat retries) 1 None.

(** *** [parse_quotes] *)

(** The dict built for one [div.quote]; its keys keep their order. *)
Definition quote_item (q : Bs4.tag) : res (list (string * string)) :=
  let text := Bs4.select_one Bs4.span_text q in
  let author := Bs4.select_one Bs4.small_author q in
  let tag_nodes := Bs4.select Bs4.div_tags_a_tag q in
  res_bind (if Bs4.tag_truthy text then Bs4.call_get_text text else Ok EmptyString)
    (fun quote_v =>
  res_bind (if Bs4.tag_truthy author then Bs4.call_get_text author else Ok EmptyString)
    (fun author_v =>
  let tags_v :=
    match tag_nodes with
    | [] => EmptyString
    | _ => join ", " (map Bs4.get_text tag_nodes)
    end in
  Ok [("quote", quote_v); ("author", author_v); ("tags", tags_v)])).

Fixpoint collect_items (qs : list Bs4.tag) : res (list (list (string * string))) :=
  match qs with
  | [] => Ok []
  | q :: qs' =>
      res_bind (quote_item q) (fun item =>
      res_bind (collect_items qs') (fun items => Ok (item :: items)))
  end.

Definition parse_soup (soup : Bs4.tag)
  : res (list (list (string * string)) * option string) :=
  res_bind (collect_items (Bs4.select Bs4.div_quote soup)) (fun items =>
  let next_link := Bs4.select_one Bs4.li_next_a soup in
  res_bind (if Bs4.tag_truthy next_link then Bs4.call_get next_link "href" else Ok None)
    (fun next_href => Ok (items, next_href))).

Definition parse_quotes (html : string)
  : res (list (list (string * string)) * option string) :=
  res_bind (BeautifulSoup html) parse_soup.

(** *** [save_to_csv] *)

Definition os_path_exists (path : string) : M bool :=
  fun w => (Ok (bool_decide (is_Some (fs w !! path))), w).

Definition os_path_getsize (path : string) : M Z :=
  fun w =>
    match fs w !! path with
    | Some f => (Ok (Z.of_nat (String.length (file_data f))), w)
    | None => (Raise (Exn FileNotFoundError path None), w)
    end.

Definition _file_exists (path : string) : M bool :=
  try_except_Exception
    (do ex <- os_path_exists path;
     if ex then (do size <- os_path_getsize path; ret (0 <? size)) else ret false)
    (fun _ => ret false).

(** [open(path, "a")]: creates the file when there is none; refuses a file
    that is not writable. *)
Definition open_append (path : string) : M unit :=
  fun w =>
    match fs w !! path with
    | Some f =>
        if file_writable f then (Ok tt, w)
        else (Raise (Exn PermissionError path None), w)
    | None =>
        (Ok tt, set_fs (<[path := {| file_writable := true; file_data := EmptyString |}]> (fs w)) w)
    end.

(** [f.write(data)] on a file opened for appending. *)
Definition file_write (path : string) (data : string) : M unit :=
  fun w =>
    match fs w !! path with
    | Some f =>
        (Ok tt, set_fs (<[path := {| file_writable := file_writable f;
                                    file_data := file_data f +:+ data |}]> (fs w)) w)
    | None => (Raise (Exn ValueError "I/O operation on closed file" None), w)
    end.

(** [DictWriter.writeheader] *)
Definition writeheader (path : string) (fieldnames : list string) : M unit :=
  emit (EvWriteHeader path fieldnames) ;;
  file_write path (Csv.record fieldnames).

(** [DictWriter._dict_to_list] with [extrasaction="raise"], [restval=""]. *)
Definition _dict_to_list (fieldnames : list string) (rowdict : list (string * string))
  : res (list string) :=
  match List.find (fun k => negb (existsb (String.eqb k) fieldnames)) (map fst rowdict) with
  | Some k => Raise (Exn ValueError ("dict contains fields not in fieldnames: " +:+ k) None)
  | None =>
      Ok (map (fun key => default EmptyString (Sqlite.assoc key rowdict)) fieldnames)
  end.

(** [DictWriter.writerows]: row after row, stopping at the first bad one. *)
Fixpoint writerows (path : string) (fieldnames : list string)
    (rows : list (list (string * string))) : M unit :=
  match rows with
  | [] => ret tt
  | r :: rows' =>
      do fields <- lift (_dict_to_list fieldnames r);
      file_write path (Csv.record fields) ;;
      writerows path fieldnames rows'
  end.

Definition save_to_csv (rows : list (list (string * string))) (csv_path : string) : M unit :=
  emit (EvSaveCsv csv_path (length rows)) ;;
  match rows with
  | [] => ret tt
  | first :: _ =>
      let fieldnames := map fst first in
      do ex <- _file_exists csv_path;
      let write_header := negb ex in
      open_append csv_path ;;
      (if write_header then writeheader csv_path fieldnames else ret tt) ;;
      writerows csv_path fieldnames rows
  end.

(** *** [init_sqlite] and [save_to_sqlite] *)

(** The tables [sqlite3.connect(db_path)] gives access to; a path without
    a file is an empty database, created on commit. *)
Definition connect (db_path : string) : M (gmap string table) :=
  fun w =>
    match dbs w !! db_path with
    | Some (Database tables) => (Ok tables, w)
    | Some NotADatabase => (Raise (Exn DatabaseError "file is not a database" None), w)
    | None => (Ok ∅, w)
    end.

Definition commit (db_path : string) (tables : gmap string table) : M unit :=
  fun w => (Ok tt, set_dbs (<[db_path := Database tables]> (dbs w)) w).

(** The schema of lines 107-112. *)
Definition quotes_columns : list column :=
  [ {| col_name := "id"; col_type := INTEGER; col_not_null := false;
       col_primary_key := true; col_autoincrement := true |};
    {| col_name := "quote"; col_type := TEXT; col_not_null := true;
       col_primary_key := false; col_autoincrement := false |};
    {| col_name := "author"; col_type := TEXT; col_not_null := false;
       col_primary_key := false; col_autoincrement := false |};
    {| col_name := "tags"; col_type := TEXT; col_not_null := false;
       col_primary_key := false; col_autoincrement := false |} ].

Definition create_quotes : stmt := CreateTable true "quotes" quotes_columns.

Definition init_sqlite (db_path : string) : M unit :=
  emit (EvInitSqlite db_path) ;;
  do con <- connect db_path;
  do con' <- lift (Sqlite.execute create_quotes con);
  commit db_path con'.

(** [r[key]] on a dict *)
Definition getitem (r : list (string * string)) (key : string) : res string :=
  match Sqlite.assoc key r with
  | Some v => Ok v
  | None => Raise (Exn KeyError key None)
  end.

Fixpoint insert_params (rows : list (list (string * string))) : res (list (list sqlval)) :=
  match rows with
  | [] => Ok []
  | r :: rows' =>
      res_bind (getitem r "quote") (fun q =>
      res_bind (getitem r "author") (fun a =>
      res_bind (getitem r "tags") (fun t =>
      res_bind (insert_params rows') (fun ps =>
      Ok ([SqlText q; SqlText a; SqlText t] :: ps)))))
  end.

(** A failing statement leaves the function before [con.commit()], so
    nothing of the batch reaches the file. *)
Definition save_to_sqlite (rows : list (list (string * string))) (db_path : string) : M unit :=
  emit (EvSaveSqlite db_path (length rows)) ;;
  match rows with
  | [] => ret tt
  | _ =>
      do con <- connect db_path;
      do params <- lift (insert_params rows);
      do con' <- lift (Sqlite.executemany "quotes" ["quote"; "author"; "tags"] params con);
      commit db_path con'
  end.

(** *** [scrape] *)

(** Which [break] ended the loop, that is, which of the two closing log
    lines was written. The Python function returns [None] either way. *)
Inductive stop_reason :=
| Reached_page_limit
| No_next_page_link.

Definition opt_int_truthy (o : option Z) : bool :=
  match o with
  | Some n => negb (n =? 0)
  | None => false
  end.

(** Lines 167-171: the polite delay between two pages. *)
Definition polite_delay (delay : F) : M unit :=
  do u <- random_uniform f_zero
            (if f_truthy delay then f_mul delay f_0_15 else f_zero);
  let sleep_for := f_max f_zero (f_add delay u) in
  if f_truthy sleep_for then time_sleep sleep_for else ret tt.

(** The [while True] loop; [page] is the counter before its increment. *)
Fixpoint scrape_loop (fuel : nat) (limit_pages : option Z) (delay : F)
    (csv_path sqlite_path : option string) (url : string) (page : Z) : M stop_reason :=
  match fuel with
  | O => fun w => (OutOfFuel, w)
  | S fuel' =>
      let page := page + 1 in
      do html <- fetch_html url 3 f_1_5;
      do parsed <- lift (parse_quotes html);
      let items := fst parsed in
      let next_href := snd parsed in
      (if opt_str_truthy csv_path
       then save_to_csv items (default EmptyString csv_path) else ret tt) ;;
      (if opt_str_truthy sqlite_path
       then save_to_sqlite items (default EmptyString sqlite_path) else ret tt) ;;
      if opt_int_truthy limit_pages && (default 0 limit_pages <=? page)
      then ret Reached_page_limit
      else if negb (opt_str_truthy next_href)
      then ret No_next_page_link
      else
        polite_delay delay ;;
        scrape_loop fuel' limit_pages delay csv_path sqlite_path
                    (urljoin url (default EmptyString next_href)) page
  end.

Definition scrape (fuel : nat) (limit_pages : option Z) (delay : F)
    (user_agent csv_path sqlite_path : option string) (verbose : bool) : M stop_reason :=
  (if opt_str_truthy sqlite_path
   then init_sqlite (default EmptyString sqlite_path) else ret tt) ;;
  scrape_loop fuel limit_pages delay csv_path sqlite_path BASE_URL 0.

(** *** [main] *)

(** The parsed command line. *)
Record Namespace := {
  args_csv_path : string;
  args_sqlite_path : string;
  args_limit_pages : Z;
  args_delay : F;
  args_user_agent : string;
  args_verbose : bool;
}.

Definition or_None (s : string) : option string :=
  if str_truthy s then Some s else None.

(** Lines 187-198: the call of [scrape] inside the [try] of [main], with
    the arguments as [main] derives them from the command line. *)
Definition main_scrape (fuel : nat) (args : Namespace) : M stop_reason :=
  let csv_path :=
    if str_truthy (strip (args_csv_path args)) then Some (args_csv_path args) else None in
  let sqlite_path := or_None (strip (args_sqlite_path args)) in
  let limit_pages :=
    if 0 <? args_limit_pages args then Some (args_limit_pages args) else None in
  scrape fuel limit_pages (args_delay args) (or_None (args_user_agent args))
         csv_path sqlite_path (args_verbose args).

(** [main]: 0 when [scrape] returns, 2 on [KeyboardInterrupt], 1 on any
    other [Exception]. *)
Definition main (fuel : nat) (args : Namespace) : M Z :=
  fun w =>
    match main_scrape fuel args w with
    | (Ok _, w') => (Ok 0, w')
    | (Raise e, w') =>
        if exc_class_eqb (exn_class e) KeyboardInterrupt then (Ok 2, w')
        else if is_Exception (exn_class e) then (Ok 1, w')
        else (Raise e, w')
    | (OutOfFuel, w') => (OutOfFuel, w')
    end.

End Scraper.

Arguments Env F : clear implicits.
Arguments World F : clear implicits.
Arguments event F : clear implicits.
Arguments M F A : clear implicits.
Arguments Namespace F : clear implicits.

(** ** Vocabulary of the properties *)

Section Observations.

Context {F : Type} `{PyFloat F}.
Variable env : Env F.

(** What one pass through the [try] block yields, given what [session.get]
    did. *)
Definition attempt_result (o : get_outcome) : res string :=
  match o with
  | GetReturns r => res_bind (raise_for_status r) (fun _ => Ok (text r))
  | GetRaises e => Raise e
  end.

(** The outcome of the k-th attempt (counted from 0) made from world [w]. *)
Definition attempt (url : string) (w : World F) (k : nat) : res string :=
  attempt_result (http_get env (n_get w + k) url).

(** [random.uniform(0, 0.2)] at the n-th draw. *)
Definition jitter (n : nat) : F :=
  f_add f_zero (f_mul (f_sub f_0_2 f_zero) (random_random env n)).

(** [backoff ** k + random.uniform(0, 0.2)] at the n-th draw. *)
Definition backoff_wait (backoff : F) (k : Z) (n : nat) : option F :=
  match f_pow backoff k with
  | Some p => Some (f_add p (jitter n))
  | None => None
  end.

(** Nobody presses Ctrl-C during a sleep. *)
Definition uninterrupted : Prop := ∀ n, sigint_in_sleep env n = false.

(** The waits after attempts 1..N can be computed and slept. *)
Definition waits_accepted (backoff : F) (N : Z) : Prop :=
  ∀ k n, 1 ≤ k ≤ N →
    ∃ d, backoff_wait backoff k n = Some d ∧ f_sleep_error d = None.

(** The first [N] attempts from [w] end in a body or in a transport
    failure (an [HTTPError], a [ConnectionError] or a [Timeout]). *)
Definition transport_failures (url : string) (w : World F) (N : nat) : Prop :=
  ∀ k e, (k < N)%nat → attempt url w k = Raise e →
    is_RequestException (exn_class e) = true.

(** The failure that [last_exc] holds once [todo] attempts from [w] have
    failed, [last] being its value before them. *)
Definition last_failure (url : string) (w : World F) (todo : nat)
    (last : option exn) : option exn :=
  match todo with
  | O => last
  | S t =>
      match attempt url w t with
      | Raise e => Some e
      | _ => None
      end
  end.

(** The world after a GET. *)
Definition got (url : string) (w : World F) : World F :=
  {| n_get := S (n_get w); n_rand := n_rand w; n_sleep := n_sleep w;
     trace := trace w ++ [EvGet url]; fs := fs w; dbs := dbs w |}.

(** The world after a failed attempt and its wait [d]. *)
Definition retried (url : string) (d : F) (w : World F) : World F :=
  {| n_get := S (n_get w); n_rand := S (n_rand w); n_sleep := S (n_sleep w);
     trace := (trace w ++ [EvGet url]) ++ [EvSleep d]; fs := fs w; dbs := dbs w |}.

(** How many GETs and sleeps a trace holds. *)
Definition is_get (e : event F) : bool :=
  match e with EvGet _ => true | _ => false end.
Definition is_sleep (e : event F) : bool :=
  match e with EvSleep _ => true | _ => false end.
Definition count_gets (tr : list (event F)) : nat := length (List.filter is_get tr).
Definition count_sleeps (tr : list (event F)) : nat := length (List.filter is_sleep tr).

(** The table [quotes] as [init_sqlite] creates it. *)
Definition fresh_quotes : table :=
  {| tbl_columns := quotes_columns; tbl_rows := []; tbl_last_rowid := 0 |}.


(** The file at [path] exists and has a size above zero. *)
Definition nonempty_file (w : World F) (path : string) : bool :=
  match fs w !! path with
  | Some f => 0 <? Z.of_nat (String.length (file_data f))
  | None => false
  end.

(** [open(path, "a")] will not be refused. *)
Definition can_append (w : World F) (path : string) : Prop :=
  ∀ f, fs w !! path = Some f → file_writable f = true.


(** The bytes of the file at [path]; none when there is no file. *)
Definition file_content (w : World F) (path : string) : string :=
  match fs w !! path with
  | Some f => file_data f
  | None => EmptyString
  end.

(** What a step on the file at [path] may change: nothing but that file,
    which is there afterwards, as writable as before (a new file is), with
    [data] appended to what it held. *)
Definition file_step (path : string) (data : string) (w w' : World F) : Prop :=
  n_get w' = n_get w ∧ n_rand w' = n_rand w ∧ n_sleep w' = n_sleep w
  ∧ dbs w' = dbs w
  ∧ (∀ p, p ≠ path → fs w' !! p = fs w !! p)
  ∧ ∃ f', fs w' !! path = Some f'
      ∧ file_writable f' = match fs w !! path with
                           | Some f => file_writable f
                           | None => true
                           end
      ∧ file_data f' = file_content w path +:+ data.

(** The store at [path] can be initialised and then written by the script:
    there is no file, or a database without a table [quotes], or one whose
    table [quotes] has the columns of [init_sqlite]. *)
Definition db_ready (w : World F) (path : string) : Prop :=
  match dbs w !! path with
  | None => True
  | Some NotADatabase => False
  | Some (Database ts) =>
      match ts !! "quotes" with
      | None => True
      | Some t => tbl_columns t = quotes_columns
      end
  end.

(** The store at [path] has the table [quotes] with those columns. *)
Definition db_initialised (w : World F) (path : string) : Prop :=
  ∃ ts t, dbs w !! path = Some (Database ts)
          ∧ ts !! "quotes" = Some t
          ∧ tbl_columns t = quotes_columns.

(** The configured destinations can be initialised and written. *)
Definition destinations_ready (csv_path sqlite_path : option string) (w : World F) : Prop :=
  (opt_str_truthy csv_path = true → can_append w (default EmptyString csv_path))
  ∧ (opt_str_truthy sqlite_path = true → db_ready w (default EmptyString sqlite_path)).

(** The configured sinks will accept a batch. *)
Definition sinks_ready (csv_path sqlite_path : option string) (w : World F) : Prop :=
  (opt_str_truthy csv_path = true → can_append w (default EmptyString csv_path))
  ∧ (opt_str_truthy sqlite_path = true →
     db_initialised w (default EmptyString sqlite_path)).

(** The items [parse_quotes] builds: dicts with the three keys in order. *)
Definition wf_items (items : list (list (string * string))) : Prop :=
  Forall (fun item => map fst item = ["quote"; "author"; "tags"]) items.

Definition is_csv_save (e : event F) : bool :=
  match e with EvSaveCsv _ _ => true | _ => false end.
Definition is_sqlite_save (e : event F) : bool :=
  match e with EvSaveSqlite _ _ => true | _ => false end.
Definition count_csv_saves (tr : list (event F)) : nat :=
  length (List.filter is_csv_save tr).
Definition count_sqlite_saves (tr : list (event F)) : nat :=
  length (List.filter is_sqlite_save tr).

(** A step that leaves the counters of a cycle alone, except that it may
    hand one batch to the CSV sink or to the SQLite sink. *)
Definition sink_step (csv sqlite : nat) (w w' : World F) : Prop :=
  n_get w' = n_get w
  ∧ count_gets (trace w') = count_gets (trace w)
  ∧ count_csv_saves (trace w') = (count_csv_saves (trace w) + csv)%nat
  ∧ count_sqlite_saves (trace w') = (count_sqlite_saves (trace w) + sqlite)%nat.

(** From [w] to [w'] exactly [n] fetch/extract/persist cycles were made:
    [n] GETs, and [n] batches handed to each configured sink. *)
Definition cycles (csv_path sqlite_path : option string) (n : nat)
    (w w' : World F) : Prop :=
  n_get w' = (n_get w + n)%nat
  ∧ count_gets (trace w') = (count_gets (trace w) + n)%nat
  ∧ count_csv_saves (trace w')
    = (count_csv_saves (trace w) + if opt_str_truthy csv_path then n else 0)%nat
  ∧ count_sqlite_saves (trace w')
    = (count_sqlite_saves (trace w) + if opt_str_truthy sqlite_path then n else 0)%nat.

(** The politeness pause after a page, at the n-th random draw. *)
Definition polite_pause (delay : F) (n : nat) : F :=
  f_max f_zero
    (f_add delay
       (f_add f_zero
          (f_mul (f_sub (if f_truthy delay then f_mul delay f_0_15 else f_zero) f_zero)
                 (random_random env n)))).


(** The server answers every GET at once with the page of the site. *)
Definition serves (site : string → string) : Prop :=
  ∀ n url, ∃ r, http_get env n url = GetReturns r
                ∧ http_error_msg r = None
                ∧ text r = site url.

(** The locators of the GETs of a trace, in the order they were made. *)
Fixpoint fetched (tr : list (event F)) : list string :=
  match tr with
  | [] => []
  | EvGet url :: tr' => url :: fetched tr'
  | _ :: tr' => fetched tr'
  end.







(** What a connection to [path] finds: the tables of the database there,
    none on a path that holds nothing or an empty file, and [None] for a
    file of another kind. *)
Definition db_content (w : World F) (path : string) : option (gmap string table) :=
  match dbs w !! path with
  | Some (Database ts) => Some ts
  | Some NotADatabase => None
  | None => Some ∅
  end.

End Observations.

(** [p] is not the path of the destination, if one is configured. *)
Definition outside (dest : option string) (p : string) : Prop :=
  opt_str_truthy dest = true → p ≠ default EmptyString dest.

Section CrawlObservations.

Variable BeautifulSoup : string → res Bs4.tag.
Variable urljoin : string → string → string.

(** The next reference [parse_quotes] extracts from a page. *)
Definition next_of (html : string) : option string :=
  match parse_quotes BeautifulSoup html with
  | Ok (_, next_href) => next_href
  | _ => None
  end.

(** The locator of the k-th page of the chain that starts at [BASE_URL]
    (counted from 0), each next reference joined to the page it is on. *)
Fixpoint page_url (site : string → string) (k : nat) : string :=
  match k with
  | O => BASE_URL
  | S k' =>
      urljoin (page_url site k')
              (default EmptyString (next_of (site (page_url site k'))))
  end.


End CrawlObservations.

(** ** Fixtures

    Concrete floats, servers and documents on which the script is run in
    the examples. *)

Module Fixture.

(** Exact rational arithmetic in place of binary floats; a sleep length is
    bad when it is negative. *)
#[global] Instance exact_float : PyFloat Q := {|
  f_zero := 0%Q;
  f_0_15 := (3 # 20)%Q;
  f_0_2 := (1 # 5)%Q;
  f_1_5 := (3 # 2)%Q;
  f_add a b := Qred (a + b)%Q;
  f_sub a b := Qred (a - b)%Q;
  f_mul a b := Qred (a * b)%Q;
  f_pow a n := Some (Qred (Qpower a n));
  f_ltb a b := negb (Qle_bool b a);
  f_truthy a := negb (Qeq_bool a 0%Q);
  f_sleep_error d := if Qle_bool 0%Q d then None else Some ValueError;
|}.

(** The world before anything ran: no files, no databases. *)
Definition empty_world : World Q :=
  {| n_get := 0; n_rand := 0; n_sleep := 0; trace := [];
     fs := ∅; dbs := ∅ |}.

(** An environment from a server; [random()] is always one half and
    nobody interrupts. *)
Definition env_of (server : nat → string → get_outcome) : Env Q :=
  {| http_get := server; random_random := fun _ => (1 # 2)%Q;
     sigint_in_sleep := fun _ => false |}.

Definition ok_response (url body : string) : response :=
  {| status_code := 200; reason := "OK"; resp_url := url; text := body |}.

(** A server that refuses every connection. *)
Definition down : nat → string → get_outcome :=
  fun _ _ => GetRaises (Exn ConnectionError "connection refused" None).

(** A server that refuses the first two connections and then answers. *)
Definition flaky : nat → string → get_outcome :=
  fun n url =>
    if (n <? 2)%nat then GetRaises (Exn ConnectionError "connection refused" None)
    else GetReturns (ok_response url "<html></html>").

(** Documents in the layout of quotes.toscrape.com. *)
Definition quote_div (text author : string) (tags : list string) : Bs4.node :=
  Bs4.Tag "div" ["quote"] ∅
    [ Bs4.Tag "span" ["text"] ∅ [Bs4.NavigableString text];
      Bs4.Tag "span" [] ∅
        [ Bs4.NavigableString "by ";
          Bs4.Tag "small" ["author"] ∅ [Bs4.NavigableString author] ];
      Bs4.Tag "div" ["tags"] ∅
        (map (fun t => Bs4.Tag "a" ["tag"] ∅ [Bs4.NavigableString t]) tags) ].

Definition next_li (href : string) : Bs4.node :=
  Bs4.Tag "li" ["next"] ∅
    [Bs4.Tag "a" [] {[ "href" := href ]} [Bs4.NavigableString "Next"]].

Definition document (body : list Bs4.node) : Bs4.tag :=
  {| Bs4.tag_parents := []; Bs4.tag_name := "[document]"; Bs4.tag_classes := [];
     Bs4.tag_attrs := ∅;
     Bs4.tag_contents := [Bs4.Tag "html" [] ∅ [Bs4.Tag "body" [] ∅ body]] |}.

(** The three documents of the examples, each named by the text the
    server sends for it. *)
Definition parsed (html : string) : Bs4.tag :=
  if String.eqb html "page 1" then
    document [quote_div " It is a truth. " "Jane Austen" ["love"; "truth"];
              next_li "/page/2/"]
  else if String.eqb html "page 2" then
    document [quote_div "So it goes." "Kurt Vonnegut" []]
  else if String.eqb html "page with an empty href" then
    document [quote_div "Again." "Nobody" []; next_li EmptyString]
  else document [].

(** A parser that builds these documents and accepts every markup. *)
Definition lxml : string → res Bs4.tag := Bs4.accepting parsed.

(** The same parser, refusing a markup that holds a surrogate code point
    as [BeautifulSoup(html, "lxml")] does. *)
Definition lxml_utf8 (html : string) : res Bs4.tag :=
  if has_surrogate html
  then Raise (Exn UnicodeEncodeError "surrogates not allowed" None)
  else Ok (parsed html).

(** The one code point U+D800, a high surrogate without its low one. *)
Definition lone_surrogate : string :=
  String (ascii_of_nat 237) (String (ascii_of_nat 160) (String (ascii_of_nat 128) EmptyString)).

(** The one code point U+00A0, a no-break space. *)
Definition no_break_space : string :=
  String (ascii_of_nat 194) (String (ascii_of_nat 160) EmptyString).

(** [urljoin] on the references of the examples, which are absolute paths. *)
Definition urljoin (base href : string) : string := BASE_URL +:+ href.

(** A site of two pages, the second without a next link. *)
Definition two_pages : nat → string → get_outcome :=
  fun _ url =>
    GetReturns (ok_response url (if String.eqb url BASE_URL then "page 1" else "page 2")).

(** A site on which every page has a next link. *)
Definition endless : nat → string → get_outcome :=
  fun _ url => GetReturns (ok_response url "page 1").


(** The user presses Ctrl-C during the first round trip. *)
Definition interrupted : nat → string → get_outcome :=
  fun _ _ => GetRaises (Exn KeyboardInterrupt EmptyString None).

(** A destination file that exists, is empty and cannot be written. *)
Definition read_only_csv : World Q :=
  {| n_get := 0; n_rand := 0; n_sleep := 0; trace := [];
     fs := {[ "data.csv" := {| file_writable := false; file_data := EmptyString |} ]};
     dbs := ∅ |}.

Definition args (csv sqlite : string) (limit : Z) : Namespace Q :=
  {| args_csv_path := csv; args_sqlite_path := sqlite; args_limit_pages := limit;
     args_delay := 1%Q; args_user_agent := EmptyString; args_verbose := false |}.

(** The user presses Ctrl-C during every sleep. *)
Definition impatient (server : nat → string → get_outcome) : Env Q :=
  {| http_get := server; random_random := fun _ => (1 # 2)%Q;
     sigint_in_sleep := fun _ => true |}.

(** A destination that holds a file of another kind. *)
Definition not_a_database : World Q :=
  {| n_get := 0; n_rand := 0; n_sleep := 0; trace := [];
     fs := ∅; dbs := {[ "data.db" := NotADatabase ]} |}.


End Fixture.

(** ** Properties of the retrying fetcher *)

Section FetchProperties.

Context {F : Type} `{PyFloat F}.
Variable env : Env F.

Lemma RequestException_is_Exception c :
  is_RequestException c = true → is_Exception c = true.
Proof. by destruct c. Qed.

Lemma attempt_result_fuel o : attempt_result o ≠ OutOfFuel.
Proof.
  destruct o as [r|e]; simpl; [|done].
  unfold raise_for_status. by destruct (http_error_msg r).
Qed.

Lemma transport_eq url w :
  transport env url w = (attempt_result (http_get env (n_get w) url), got url w).
Proof.
  unfold transport, bind, session_get, lift, ret, got.
  destruct (http_get env (n_get w) url) as [r|e]; simpl; [|done].
  by destruct (raise_for_status r) as [[]| |].
Qed.

Lemma fetch_html_loop_ok url retries backoff todo a last w body :
  attempt env url w 0%nat = Ok body →
  fetch_html_loop env url retries backoff (S todo) a last w = (Ok body, got url w).
Proof.
  unfold attempt. rewrite Nat.add_0_r. intros Hok. simpl.
  unfold try_except_Exception. by rewrite transport_eq, Hok.
Qed.

Lemma fetch_html_loop_retry url retries backoff todo a last w e d :
  attempt env url w 0%nat = Raise e →
  is_Exception (exn_class e) = true →
  backoff_wait env backoff a (n_rand w) = Some d →
  f_sleep_error d = None →
  sigint_in_sleep env (n_sleep w) = false →
  fetch_html_loop env url retries backoff (S todo) a last w
  = fetch_html_loop env url retries backoff todo (a + 1) (Some e) (retried url d w).
Proof.
  unfold attempt, backoff_wait, jitter. rewrite Nat.add_0_r.
  intros Hraise Hexc Hwait Hd Hint. simpl.
  unfold try_except_Exception at 1. rewrite transport_eq, Hraise, Hexc.
  unfold bind at 1, py_pow.
  destruct (f_pow backoff a) as [p|]; [|done].
  injection Hwait as <-.
  unfold ret, bind at 1, random_uniform, bind at 1, time_sleep. cbn [n_rand got n_sleep].
  by rewrite Hd, Hint.
Qed.

Lemma attempt_retried url d w k :
  attempt env url (retried url d w) k = attempt env url w (S k).
Proof. unfold attempt. simpl. by rewrite Nat.add_succ_r. Qed.

Lemma last_failure_retried url d w t e last :
  attempt env url w 0%nat = Raise e →
  last_failure env url (retried url d w) t (Some e)
  = last_failure env url w (S t) last.
Proof.
  intros He. destruct t as [|t]; simpl.
  - by rewrite He.
  - by rewrite attempt_retried.
Qed.

(** When every one of the [todo] attempts fails, the loop makes all of
    them, sleeps after each, the last included, and raises the
    [RuntimeError] that carries the last failure. *)
Lemma fetch_html_loop_exhausted url retries backoff todo :
  uninterrupted env →
  ∀ w a last,
    (∀ k n, a ≤ k < a + Z.of_nat todo →
       ∃ d, backoff_wait env backoff k n = Some d ∧ f_sleep_error d = None) →
    transport_failures env url w todo →
    (∀ k, (k < todo)%nat → ∀ b, attempt env url w k ≠ Ok b) →
    let r := fetch_html_loop env url retries backoff todo a last w in
    fst r = Raise (Exn RuntimeError (fetch_failed_msg url retries)
                       (last_failure env url w todo last))
    ∧ n_get (snd r) = (n_get w + todo)%nat
    ∧ n_sleep (snd r) = (n_sleep w + todo)%nat
    ∧ ∃ tr, trace (snd r) = trace w ++ tr
            ∧ count_gets tr = todo ∧ count_sleeps tr = todo
            ∧ (todo = 0%nat → tr = [])
            ∧ ((0 < todo)%nat → ∃ tr' d, tr = tr' ++ [EvGet url; EvSleep d]).
Proof.
  intros Hint. induction todo as [|t IH]; intros w a last Hwait Htrans Hfail r.
  - subst r. simpl. rewrite !Nat.add_0_r. repeat split.
    exists []. rewrite app_nil_r. repeat split; [done..|lia].
  - destruct (attempt env url w 0%nat) as [b|e|] eqn:Hatt.
    + by destruct (Hfail 0%nat ltac:(lia) b).
    + assert (Hexc : is_Exception (exn_class e) = true).
      { apply RequestException_is_Exception, (Htrans 0%nat); [lia|done]. }
      destruct (Hwait a (n_rand w) ltac:(lia)) as (d & Hd & Hsl).
      subst r.
      rewrite (fetch_html_loop_retry _ _ _ _ _ _ _ _ d Hatt Hexc Hd Hsl (Hint _)).
      destruct (IH (retried url d w) (a + 1) (Some e)) as (Hr & Hg & Hs & tr & Htr & Hcg & Hcs & Hnil & Hend).
      * intros k n Hk. apply Hwait. lia.
      * intros k e' Hk. rewrite attempt_retried. apply Htrans. lia.
      * intros k Hk b. rewrite attempt_retried. apply Hfail. lia.
      * rewrite Hr, Hg, Hs, (last_failure_retried _ _ _ _ _ last Hatt).
        simpl. split; [done|]. split; [lia|]. split; [lia|].
        exists ([EvGet url; EvSleep d] ++ tr). rewrite Htr. simpl.
        rewrite <- !app_assoc. simpl. split; [done|].
        unfold count_gets, count_sleeps in *. simpl. rewrite Hcg, Hcs.
        split; [done|]. split; [done|]. split; [done|]. intros _.
        destruct t as [|t'].
        -- exists [], d. by rewrite Hnil.
        -- destruct (Hend ltac:(lia)) as (tr' & d' & ->).
           by exists ([EvGet url; EvSleep d] ++ tr'), d'.
    + by destruct (attempt_result_fuel (http_get env (n_get w + 0) url)).
Qed.

(** The first attempt that succeeds ends the loop with its body; no sleep
    follows it. *)
Lemma fetch_html_loop_success url retries backoff :
  uninterrupted env →
  ∀ k todo w a last body,
    (k < todo)%nat →
    (∀ j n, a ≤ j < a + Z.of_nat k →
       ∃ d, backoff_wait env backoff j n = Some d ∧ f_sleep_error d = None) →
    transport_failures env url w k →
    attempt env url w k = Ok body →
    (∀ j, (j < k)%nat → ∀ b, attempt env url w j ≠ Ok b) →
    let r := fetch_html_loop env url retries backoff todo a last w in
    fst r = Ok body
    ∧ n_get (snd r) = (n_get w + S k)%nat
    ∧ n_sleep (snd r) = (n_sleep w + k)%nat
    ∧ ∃ tr, trace (snd r) = (trace w ++ tr ++ [EvGet url])%list.
Proof.
  intros Hint. induction k as [|k IH]; intros todo w a last body Hk Hwait Htrans Hok Hfail r;
    (destruct todo as [|t]; [lia|]).
  - subst r. rewrite (fetch_html_loop_ok _ retries backoff t a last _ _ Hok). simpl.
    repeat split; [lia..|]. by exists [].
  - destruct (attempt env url w 0%nat) as [b|e|] eqn:Hatt.
    + by destruct (Hfail 0%nat ltac:(lia) b).
    + assert (Hexc : is_Exception (exn_class e) = true).
      { apply RequestException_is_Exception, (Htrans 0%nat); [lia|done]. }
      destruct (Hwait a (n_rand w) ltac:(lia)) as (d & Hd & Hsl).
      subst r.
      rewrite (fetch_html_loop_retry _ _ _ _ _ _ _ _ d Hatt Hexc Hd Hsl (Hint _)).
      destruct (IH t (retried url d w) (a + 1) (Some e) body) as (Hr & Hg & Hs & tr & Htr).
      * lia.
      * intros j n Hj. apply Hwait. lia.
      * intros j e' Hj. rewrite attempt_retried. apply Htrans. lia.
      * by rewrite attempt_retried.
      * intros j Hj b. rewrite attempt_retried. apply Hfail. lia.
      * rewrite Hr, Hg, Hs. simpl. repeat split; [lia..|].
        exists ([EvGet url; EvSleep d] ++ tr). rewrite Htr. simpl.
        by rewrite <- !app_assoc.
    + by destruct (attempt_result_fuel (http_get env (n_get w + 0) url)).
Qed.

(** Among the first [n] attempts either one is the first to succeed or all
    fail. *)
Lemma first_success_or_none url w n :
  (∃ k body, (k < n)%nat ∧ attempt env url w k = Ok body
             ∧ ∀ j, (j < k)%nat → ∀ b, attempt env url w j ≠ Ok b)
  ∨ (∀ k, (k < n)%nat → ∀ b, attempt env url w k ≠ Ok b).
Proof.
  induction n as [|n [(k & body & Hk & Hok & Hmin)|Hnone]].
  - right. intros k Hk. lia.
  - left. exists k, body. split; [lia|done].
  - destruct (attempt env url w n) as [b| |] eqn:Hn.
    + left. exists n, b. repeat split; [lia|done|]. intros j Hj. by apply Hnone.
    + right. intros k Hk b. destruct (decide (k = n)) as [->|]; [congruence|].
      apply Hnone. lia.
    + right. intros k Hk b. destruct (decide (k = n)) as [->|]; [congruence|].
      apply Hnone. lia.
Qed.

(** C3. With the waits computable and no Ctrl-C, [fetch_html] called with
    [retries = N] against attempts that each end in a body or a transport
    failure returns the body of the first attempt that succeeds (having
    issued no GET after it); it raises exactly when all [N] attempts fail,
    and what it raises is then the [RuntimeError] that names [N], is raised
    after [N] GETs and has the failure of the last attempt as its cause;
    what it raises is never a transport failure itself. *)
Theorem fetch_html_first_success_or_exhausted url N backoff w :
  uninterrupted env →
  waits_accepted env backoff N →
  transport_failures env url w (Z.to_nat N) →
  let r := fetch_html env url N backoff w in
  (∀ k body,
     (k < Z.to_nat N)%nat →
     attempt env url w k = Ok body →
     (∀ j, (j < k)%nat → ∀ b, attempt env url w j ≠ Ok b) →
     fst r = Ok body ∧ n_get (snd r) = (n_get w + S k)%nat)
  ∧ ((∃ e, fst r = Raise e)
     ↔ (∀ k, (k < Z.to_nat N)%nat → ∀ b, attempt env url w k ≠ Ok b))
  ∧ (∀ e, fst r = Raise e →
       exn_class e = RuntimeError
       ∧ exn_msg e = fetch_failed_msg url N
       ∧ n_get (snd r) = (n_get w + Z.to_nat N)%nat
       ∧ (0 < N → ∃ last,
            attempt env url w (Z.to_nat N - 1) = Raise last
            ∧ exn_cause e = Some last)
       ∧ is_RequestException (exn_class e) = false).
Proof.
  intros Hint Hwait Htrans r.
  destruct (first_success_or_none url w (Z.to_nat N))
    as [(k & body & Hk & Hok & Hmin)|Hnone].
  - destruct (fetch_html_loop_success url N backoff Hint k (Z.to_nat N) w 1 None body)
      as (Hr & Hg & _); [done| | |done|done|].
    { intros j n Hj. apply Hwait. lia. }
    { intros j e Hj. apply Htrans. lia. }
    fold (fetch_html env url N backoff w) in Hr, Hg. fold r in Hr, Hg.
    split; [|split].
    + intros k' body' Hk' Hok' Hmin'.
      assert (k' = k) as ->.
      { destruct (Nat.lt_trichotomy k' k) as [Hlt | [-> | Hlt]]; [|done|].
        - by destruct (Hmin k' Hlt body').
        - by destruct (Hmin' k Hlt body). }
      rewrite Hok in Hok'. injection Hok' as <-. done.
    + split.
      * intros [e He]. congruence.
      * intros Hnone. by destruct (Hnone k Hk body).
    + intros e He. congruence.
  - destruct (fetch_html_loop_exhausted url N backoff (Z.to_nat N) Hint w 1 None)
      as (Hr & Hg & _); [|done|done|].
    { intros j n Hj. apply Hwait. lia. }
    fold (fetch_html env url N backoff w) in Hr, Hg. fold r in Hr, Hg.
    split; [|split].
    + intros k body Hk Hok _. by destruct (Hnone k Hk body).
    + split; [done|]. intros _. eauto.
    + intros e He. rewrite Hr in He. injection He as <-. simpl.
      repeat split; [done|].
      intros HN. destruct (Z.to_nat N) as [|t] eqn:Ht; [lia|]. simpl.
      rewrite Nat.sub_0_r.
      destruct (attempt env url w t) as [b|last|] eqn:Hatt.
      * by destruct (Hnone t ltac:(lia) b).
      * by exists last.
      * by destruct (attempt_result_fuel (http_get env (n_get w + t) url)).
Qed.

(** C10. With [retries <= 0] the loop body never runs: [fetch_html] makes
    no GET and no sleep (the world is unchanged) and raises at once the
    [RuntimeError] whose cause is [None]. *)
Theorem fetch_html_without_attempts url retries backoff w :
  retries ≤ 0 →
  fetch_html env url retries backoff w
  = (Raise (Exn RuntimeError (fetch_failed_msg url retries) None), w).
Proof.
  intros Hle. unfold fetch_html.
  by replace (Z.to_nat retries) with 0%nat by lia.
Qed.

(** C7, as the code has it. A single transport attempt makes one GET and
    nothing else; it raises an [HTTPError] exactly for a status in
    400..599, returns the body for every other status (1xx, 2xx, 3xx
    included), and lets whatever [session.get] raised pass. *)
Theorem transport_raises_for_4xx_5xx_only url w :
  match http_get env (n_get w) url with
  | GetReturns r =>
      (400 ≤ status_code r < 600 →
       ∃ m, fst (transport env url w) = Raise (Exn HTTPError m None))
      ∧ (¬ 400 ≤ status_code r < 600 → fst (transport env url w) = Ok (text r))
  | GetRaises e => fst (transport env url w) = Raise e
  end
  ∧ snd (transport env url w) = got url w.
Proof.
  rewrite transport_eq. simpl. split; [|done].
  destruct (http_get env (n_get w) url) as [r|e]; simpl; [|done].
  unfold raise_for_status, http_error_msg.
  destruct (400 <=? status_code r) eqn:H1, (status_code r <? 500) eqn:H2,
    (500 <=? status_code r) eqn:H3, (status_code r <? 600) eqn:H4; simpl;
    (split; [intros ?; try (eexists; reflexivity); lia | intros ?; try done; lia]).
Qed.

End FetchProperties.

(** C3, on the flaky server: two refused connections, then the body. *)
Lemma fetch_html_first_success_or_exhausted_flaky :
  fst (fetch_html (Fixture.env_of Fixture.flaky) "u" 3 f_1_5 Fixture.empty_world)
  = Ok "<html></html>".
Proof.
  assert (Hint : uninterrupted (Fixture.env_of Fixture.flaky)) by (intros n; reflexivity).
  assert (Hwait : waits_accepted (Fixture.env_of Fixture.flaky) f_1_5 3).
  { intros k n Hk. unfold backoff_wait. simpl. eexists. split; [reflexivity|].
    assert (k = 1 ∨ k = 2 ∨ k = 3) as [-> | [-> | ->]] by lia; reflexivity. }
  assert (Htrans : transport_failures (Fixture.env_of Fixture.flaky) "u"
                     Fixture.empty_world (Z.to_nat 3)).
  { intros k e Hk. change (Z.to_nat 3) with 3%nat in Hk. unfold attempt. simpl.
    destruct k as [|[|[|k]]]; simpl; intros He;
      first [discriminate | by injection He as <- | lia]. }
  destruct (fetch_html_first_success_or_exhausted (Fixture.env_of Fixture.flaky)
              "u" 3 f_1_5 Fixture.empty_world Hint Hwait Htrans) as [Hfirst _].
  apply (Hfirst 2%nat).
  - simpl. lia.
  - reflexivity.
  - intros j Hj b. destruct j as [|[|j]]; [discriminate..|lia].
Defined.

(** C10, at [retries = 0]. *)
Lemma fetch_html_without_attempts_zero :
  fetch_html (Fixture.env_of Fixture.flaky) "u" 0 f_1_5 Fixture.empty_world
  = (Raise (Exn RuntimeError "Failed to fetch u after 0 retries" None),
     Fixture.empty_world).
Proof.
  apply (fetch_html_without_attempts (Fixture.env_of Fixture.flaky) "u" 0 f_1_5
           Fixture.empty_world).
  lia.
Defined.

(** C4. Against a server that refuses every connection, [fetch_html] with
    its defaults sleeps three times: after the third and last attempt it
    still waits 1.5 ** 3 + 0.1 seconds, and only then raises. *)
Lemma fetch_html_sleeps_after_last_attempt :
  let r := fetch_html (Fixture.env_of Fixture.down) "u" 3 f_1_5 Fixture.empty_world in
  fst r = Raise (Exn RuntimeError "Failed to fetch u after 3 retries"
                     (Some (Exn ConnectionError "connection refused" None)))
  ∧ trace (snd r)
    = [EvGet "u"; EvSleep (8 # 5)%Q; EvGet "u"; EvSleep (47 # 20)%Q;
       EvGet "u"; EvSleep (139 # 40)%Q].
Proof. split; reflexivity. Qed.

(** C7, as stated, fails on a 304: the status is outside 2xx and the body
    is returned. *)
Lemma transport_returns_body_of_304 :
  let r := {| status_code := 304; reason := "Not Modified"; resp_url := "u";
              text := "stale" |} in
  ¬ 200 ≤ status_code r < 300
  ∧ fst (transport (Fixture.env_of (fun _ _ => GetReturns r)) "u" Fixture.empty_world)
    = Ok "stale".
Proof. split; [simpl; lia | reflexivity]. Qed.

(** ** Properties of the extractor *)

Section ParseProperties.

Variable BeautifulSoup : string → res Bs4.tag.

Lemma quote_item_ok q :
  quote_item q
  = Ok [("quote", match Bs4.select_one Bs4.span_text q with
                  | Some t => Bs4.get_text t
                  | None => EmptyString
                  end);
        ("author", match Bs4.select_one Bs4.small_author q with
                   | Some t => Bs4.get_text t
                   | None => EmptyString
                   end);
        ("tags", join ", " (map Bs4.get_text (Bs4.select Bs4.div_tags_a_tag q)))].
Proof.
  unfold quote_item.
  destruct (Bs4.select_one Bs4.span_text q), (Bs4.select_one Bs4.small_author q),
    (Bs4.select Bs4.div_tags_a_tag q); reflexivity.
Qed.

Lemma collect_items_ok qs :
  ∃ items, collect_items qs = Ok items
    ∧ length items = length qs
    ∧ ∀ i q, qs !! i = Some q → ∃ item, items !! i = Some item ∧ quote_item q = Ok item.
Proof.
  induction qs as [|q qs (items & Heq & Hlen & Hnth)]; simpl.
  - exists []. repeat split. intros i q Hq. by destruct i.
  - rewrite quote_item_ok, Heq. simpl. eexists. split; [reflexivity|].
    simpl. split; [by rewrite Hlen|].
    intros [|i] q' Hq'; simpl in *.
    + injection Hq' as <-. eexists. split; [reflexivity|]. by rewrite quote_item_ok.
    + by apply Hnth.
Qed.

(** Lines 66-79 on a parsed document: they return, whatever the document
    holds. *)
Lemma parse_soup_degrades_gracefully soup :
  ∃ items next_href,
    parse_soup soup = Ok (items, next_href)
    ∧ length items = length (Bs4.select Bs4.div_quote soup)
    ∧ (∀ i q, Bs4.select Bs4.div_quote soup !! i = Some q →
         ∃ quote author tags,
           items !! i = Some [("quote", quote); ("author", author); ("tags", tags)]
           ∧ (Bs4.select_one Bs4.span_text q = None → quote = EmptyString)
           ∧ (∀ t, Bs4.select_one Bs4.span_text q = Some t → quote = Bs4.get_text t)
           ∧ (Bs4.select_one Bs4.small_author q = None → author = EmptyString)
           ∧ (∀ t, Bs4.select_one Bs4.small_author q = Some t → author = Bs4.get_text t)
           ∧ (Bs4.select Bs4.div_tags_a_tag q = [] → tags = EmptyString)
           ∧ tags = join ", " (map Bs4.get_text (Bs4.select Bs4.div_tags_a_tag q)))
    ∧ (Bs4.select Bs4.div_quote soup = [] → items = [])
    ∧ (Bs4.select_one Bs4.li_next_a soup = None → next_href = None)
    ∧ (∀ a, Bs4.select_one Bs4.li_next_a soup = Some a →
         next_href = Bs4.tag_attrs a !! "href").
Proof.
  unfold parse_soup.
  destruct (collect_items_ok (Bs4.select Bs4.div_quote soup)) as (items & Heq & Hlen & Hnth).
  rewrite Heq. simpl.
  exists items,
    (match Bs4.select_one Bs4.li_next_a soup with
     | Some a => Bs4.tag_attrs a !! "href"
     | None => None
     end).
  split; [by destruct (Bs4.select_one Bs4.li_next_a soup)|].
  split; [done|]. split; [|split; [|split]].
  - intros i q Hq. destruct (Hnth i q Hq) as (item & Hi & Hitem).
    rewrite quote_item_ok in Hitem. injection Hitem as <-.
    do 3 eexists. split; [exact Hi|].
    repeat split; try (by intros ->); by intros t ->.
  - intros Hnil. rewrite Hnil in Hlen. by destruct items.
  - by intros ->.
  - by intros a ->.
Qed.

(** C8, as the code has it. [parse_quotes] has no handler around the
    constructor of line 65: what [BeautifulSoup(html, "lxml")] raises
    leaves the function. For every input the constructor accepts,
    [parse_quotes] returns. Its items are then as many as the document has
    [div.quote] elements and stand in their document order: the i-th item
    is the dict of the i-th element, with the text of [span.text], of
    [small.author] and of the [a.tag] elements, each the empty string when
    the sub-element is missing. Without a [div.quote] the items are the
    empty list, and without an [li.next a] the next reference is [None]. *)
Theorem parse_quotes_degrades_gracefully html :
  (∀ e, BeautifulSoup html = Raise e → parse_quotes BeautifulSoup html = Raise e)
  ∧ (∀ soup, BeautifulSoup html = Ok soup →
     ∃ items next_href,
       parse_quotes BeautifulSoup html = Ok (items, next_href)
       ∧ length items = length (Bs4.select Bs4.div_quote soup)
       ∧ (∀ i q, Bs4.select Bs4.div_quote soup !! i = Some q →
            ∃ quote author tags,
              items !! i = Some [("quote", quote); ("author", author); ("tags", tags)]
              ∧ (Bs4.select_one Bs4.span_text q = None → quote = EmptyString)
              ∧ (∀ t, Bs4.select_one Bs4.span_text q = Some t → quote = Bs4.get_text t)
              ∧ (Bs4.select_one Bs4.small_author q = None → author = EmptyString)
              ∧ (∀ t, Bs4.select_one Bs4.small_author q = Some t →
                   author = Bs4.get_text t)
              ∧ (Bs4.select Bs4.div_tags_a_tag q = [] → tags = EmptyString)
              ∧ tags = join ", " (map Bs4.get_text (Bs4.select Bs4.div_tags_a_tag q)))
       ∧ (Bs4.select Bs4.div_quote soup = [] → items = [])
       ∧ (Bs4.select_one Bs4.li_next_a soup = None → next_href = None)
       ∧ (∀ a, Bs4.select_one Bs4.li_next_a soup = Some a →
            next_href = Bs4.tag_attrs a !! "href")).
Proof.
  unfold parse_quotes. split.
  - by intros e ->.
  - intros soup ->. cbn [res_bind]. apply parse_soup_degrades_gracefully.
Qed.

End ParseProperties.

(** C8, as stated, fails on a markup that the parser refuses: on a [str]
    that holds the lone surrogate U+D800, [BeautifulSoup(html, "lxml")]
    raises [UnicodeEncodeError], and so does [parse_quotes]. *)
Lemma parse_quotes_raises_on_lone_surrogate :
  has_surrogate Fixture.lone_surrogate = true
  ∧ parse_quotes Fixture.lxml_utf8 Fixture.lone_surrogate
    = Raise (Exn UnicodeEncodeError "surrogates not allowed" None).
Proof. split; reflexivity. Qed.

(** ** Properties of the relational sink *)

Section SqliteProperties.

Context {F : Type} `{PyFloat F}.

Lemma init_sqlite_eq db_path (w : World F) tables :
  (dbs w !! db_path = Some (Database tables)
   ∨ dbs w !! db_path = None ∧ tables = ∅) →
  init_sqlite db_path w
  = (Ok tt,
     set_dbs (<[db_path := Database (match tables !! "quotes" with
                                     | Some _ => tables
                                     | None => <["quotes" := fresh_quotes]>
                                                 (Sqlite.with_sequence tables)
                                     end)]> (dbs w))
             (log_event (EvInitSqlite db_path) w)).
Proof.
  intros Hdb. unfold init_sqlite, bind, emit, connect, lift, commit. simpl.
  assert (match dbs w !! db_path with
          | Some (Database ts) => (Ok ts, log_event (EvInitSqlite db_path) w)
          | Some NotADatabase =>
              (Raise (Exn DatabaseError "file is not a database" None),
               log_event (EvInitSqlite db_path) w)
          | None => (Ok ∅, log_event (EvInitSqlite db_path) w)
          end = (Ok tables, log_event (EvInitSqlite db_path) w)) as ->.
  { destruct Hdb as [->|[-> ->]]; reflexivity. }
  by destruct (tables !! "quotes").
Qed.

(** C6, as the code has it. On a path that holds a database or nothing,
    [init_sqlite] succeeds; a store that already has a table [quotes] is
    left as it is, whatever that table looks like; otherwise the table is
    added, empty, with the columns [id INTEGER PRIMARY KEY AUTOINCREMENT],
    [quote TEXT NOT NULL], [author TEXT] and [tags TEXT]: one column per
    key of an item after the identity, of which [author] and [tags] are
    nullable and [quote] is not; SQLite adds its [sqlite_sequence] with
    it when the store has none. No other path is touched, and a second
    call changes nothing. *)
Theorem init_sqlite_creates_quotes_if_absent db_path (w : World F) :
  dbs w !! db_path ≠ Some NotADatabase →
  let tables := match dbs w !! db_path with
                | Some (Database ts) => ts
                | _ => ∅
                end in
  let r := init_sqlite db_path w in
  fst r = Ok tt
  ∧ (∀ t, tables !! "quotes" = Some t →
       dbs (snd r) !! db_path = Some (Database tables))
  ∧ (tables !! "quotes" = None →
       dbs (snd r) !! db_path
       = Some (Database (<["quotes" := fresh_quotes]> (Sqlite.with_sequence tables))))
  ∧ (∀ p, p ≠ db_path → dbs (snd r) !! p = dbs w !! p)
  ∧ dbs (snd (init_sqlite db_path (snd r))) = dbs (snd r)
  ∧ create_quotes = CreateTable true "quotes" quotes_columns
  ∧ map (fun c => (col_name c, col_type c, col_not_null c)) quotes_columns
    = [("id", INTEGER, false); ("quote", TEXT, true);
       ("author", TEXT, false); ("tags", TEXT, false)]
  ∧ map (fun c => (col_primary_key c, col_autoincrement c)) quotes_columns
    = [(true, true); (false, false); (false, false); (false, false)]
  ∧ (∀ q item, quote_item q = Ok item →
       map fst item = map col_name (tail quotes_columns)).
Proof.
  intros Hdb tables r.
  assert (Hcase : dbs w !! db_path = Some (Database tables)
                  ∨ dbs w !! db_path = None ∧ tables = ∅).
  { subst tables. destruct (dbs w !! db_path) as [[|ts]|]; [done|by left|by right]. }
  subst r. rewrite (init_sqlite_eq _ _ _ Hcase). simpl.
  split; [done|]. split; [|split; [|split; [|split]]].
  - intros t Ht. by rewrite Ht, lookup_insert_eq.
  - intros Hnone. by rewrite Hnone, lookup_insert_eq.
  - intros p Hp. by rewrite lookup_insert_ne.
  - set (ts' := match tables !! "quotes" with
                | Some _ => tables
                | None => <["quotes" := fresh_quotes]> (Sqlite.with_sequence tables)
                end).
    rewrite (init_sqlite_eq _ _ ts'); simpl; [|left; by rewrite lookup_insert_eq].
    assert (is_Some (ts' !! "quotes")) as [t' ->].
    { subst ts'. destruct (tables !! "quotes") eqn:Hq; [by rewrite Hq|].
      rewrite lookup_insert_eq. by eexists. }
    by rewrite insert_insert_eq.
  - repeat split. intros q item. rewrite quote_item_ok. by intros [= <-].
Qed.

End SqliteProperties.

(** C6 on a path with no file: the store then holds the empty table, and
    the empty [sqlite_sequence]. *)
Lemma init_sqlite_creates_quotes_if_absent_fresh :
  dbs (snd (init_sqlite "data.db" Fixture.empty_world)) !! "data.db"
  = Some (Database (<["quotes" := fresh_quotes]>
                      (<["sqlite_sequence" := Sqlite.empty_sequence]> ∅))).
Proof.
  destruct (init_sqlite_creates_quotes_if_absent "data.db" Fixture.empty_world)
    as (_ & _ & Hnew & _).
  - discriminate.
  - apply Hnew. reflexivity.
Defined.

(** C6, as stated, fails on the [quote] column: in the table a first call
    creates it is declared NOT NULL, and an INSERT that leaves it out is
    refused. *)
Lemma quote_column_is_not_nullable :
  ∃ tables t c,
    dbs (snd (init_sqlite "data.db" Fixture.empty_world)) !! "data.db"
    = Some (Database tables)
    ∧ tables !! "quotes" = Some t
    ∧ tbl_columns t !! 1%nat = Some c
    ∧ col_name c = "quote"
    ∧ col_not_null c = true
    ∧ Sqlite.execute (InsertInto "quotes" ["author"] [SqlText "Jane Austen"]) tables
      = Raise (Exn IntegrityError "NOT NULL constraint failed: quotes.quote" None).
Proof.
  exists (<["quotes" := fresh_quotes]> (<["sqlite_sequence" := Sqlite.empty_sequence]> ∅)),
    fresh_quotes,
    {| col_name := "quote"; col_type := TEXT; col_not_null := true;
       col_primary_key := false; col_autoincrement := false |}.
  repeat split; vm_compute; reflexivity.
Qed.

(** ** Properties of the delimited-file sink *)

Section CsvProperties.

Context {F : Type} `{PyFloat F}.

Lemma string_length_app (a b : string) :
  String.length (a +:+ b) = (String.length a + String.length b)%nat.
Proof. induction a as [|c a IH]; simpl; [done|by rewrite IH]. Qed.

Lemma csv_record_nonempty fields : (0 < String.length (Csv.record fields))%nat.
Proof. unfold Csv.record. rewrite string_length_app. simpl. lia. Qed.

Lemma _file_exists_eq path (w : World F) :
  _file_exists path w = (Ok (nonempty_file w path), w).
Proof.
  unfold _file_exists, try_except_Exception, bind, os_path_exists, os_path_getsize,
    nonempty_file, ret.
  destruct (fs w !! path) as [f|] eqn:Hf; simpl.
  - by rewrite Hf.
  - done.
Qed.

Lemma string_app_nil_r (a : string) : a +:+ EmptyString = a.
Proof.
  induction a as [|c a IH]; [done|].
  change (String c (a +:+ EmptyString) = String c a). by rewrite IH.
Qed.

Lemma string_app_assoc (a b c : string) : (a +:+ b) +:+ c = a +:+ (b +:+ c).
Proof.
  induction a as [|x a IH]; [done|].
  change (String x ((a +:+ b) +:+ c) = String x (a +:+ (b +:+ c))). by rewrite IH.
Qed.

Lemma file_step_content path data (w w' : World F) :
  file_step path data w w' → file_content w' path = file_content w path +:+ data.
Proof.
  intros (_ & _ & _ & _ & _ & f' & Hf' & _ & Hdata).
  unfold file_content at 1. by rewrite Hf'.
Qed.

Lemma file_step_trans path d1 d2 (w1 w2 w3 : World F) :
  file_step path d1 w1 w2 → file_step path d2 w2 w3 → file_step path (d1 +:+ d2) w1 w3.
Proof.
  intros Hs1 Hs2. pose proof (file_step_content _ _ _ _ Hs1) as Hc.
  destruct Hs1 as (Hg & Hr & Hs & Hd & Ho & f2 & Hf2 & Hw2 & Hl2).
  destruct Hs2 as (Hg' & Hr' & Hs' & Hd' & Ho' & f3 & Hf3 & Hw3 & Hl3).
  rewrite Hf2 in Hw3.
  repeat split; try congruence.
  - intros p Hp. rewrite Ho', Ho; done.
  - exists f3. split; [done|]. split; [congruence|].
    by rewrite Hl3, Hc, string_app_assoc.
Qed.

Lemma open_append_step path (w : World F) :
  can_append w path →
  ∃ w', open_append path w = (Ok tt, w') ∧ trace w' = trace w
        ∧ file_step path EmptyString w w'.
Proof.
  intros Hcan. unfold open_append, file_step, file_content.
  destruct (fs w !! path) as [f|] eqn:Hf.
  - rewrite (Hcan f Hf). exists w. rewrite Hf. repeat split; try done.
    exists f. rewrite string_app_nil_r. split; [done|]. split; [by apply Hcan|done].
  - eexists. split; [reflexivity|]. split; [done|]. simpl.
    repeat split; try done.
    + intros p Hp. by rewrite lookup_insert_ne.
    + eexists. by rewrite lookup_insert_eq.
Qed.

Lemma file_write_step path data (w : World F) f :
  fs w !! path = Some f →
  ∃ w', file_write path data w = (Ok tt, w') ∧ trace w' = trace w
        ∧ file_step path data w w'.
Proof.
  intros Hf. unfold file_write. rewrite Hf. eexists. split; [reflexivity|].
  split; [done|]. unfold file_step, file_content. simpl. rewrite Hf.
  repeat split; try done.
  - intros p Hp. by rewrite lookup_insert_ne.
  - eexists. by rewrite lookup_insert_eq.
Qed.

Lemma file_step_present path data (w w' : World F) :
  file_step path data w w' → ∃ f', fs w' !! path = Some f'.
Proof. intros (_ & _ & _ & _ & _ & f' & Hf' & _). by exists f'. Qed.

Lemma file_step_refl path (w : World F) f :
  fs w !! path = Some f → file_step path EmptyString w w.
Proof.
  intros Hf. unfold file_step, file_content. rewrite Hf. repeat split; try done.
  exists f. by rewrite string_app_nil_r.
Qed.

Lemma writerows_step path fieldnames rows :
  ∀ (w : World F) f, fs w !! path = Some f →
    ∃ r w' data, writerows path fieldnames rows w = (r, w') ∧ r ≠ OutOfFuel
            ∧ trace w' = trace w ∧ file_step path data w w'
            ∧ (Forall (fun row => ∃ fields, _dict_to_list fieldnames row = Ok fields) rows
               → r = Ok tt).
Proof.
  induction rows as [|row rows IH]; intros w f Hf; simpl.
  - exists (Ok tt), w, EmptyString. repeat split; try done.
    by apply (file_step_refl _ _ f).
  - unfold bind at 1, lift. destruct (_dict_to_list fieldnames row) as [fields|e|] eqn:Hrow.
    + unfold bind at 1.
      destruct (file_write_step path (Csv.record fields) w f Hf) as (w1 & -> & Ht1 & Hs1).
      destruct (file_step_present _ _ _ _ Hs1) as [f1 Hf1].
      destruct (IH w1 f1 Hf1) as (r & w2 & data & -> & Hr & Ht2 & Hs2 & Hgood).
      exists r, w2, (Csv.record fields +:+ data).
      split; [done|]. split; [done|]. split; [congruence|].
      split; [by apply (file_step_trans _ _ _ w w1 w2)|].
      intros Hall; apply Hgood; by inversion Hall.
    + exists (Raise e), w, EmptyString.
      split; [done|]. split; [done|]. split; [done|].
      split; [by apply (file_step_refl _ _ f)|].
      intros Hall. inversion Hall as [|? ? [fields Hfields] ?]; subst. congruence.
    + unfold _dict_to_list in Hrow. by destruct (List.find _ _).
Qed.

Lemma bind_eq {A B} (m : M F A) (k : A → M F B) w a w1 :
  m w = (Ok a, w1) → bind m k w = k a w1.
Proof. unfold bind. by intros ->. Qed.

Lemma nonempty_after_append path data (w w' : World F) :
  file_step path data w w' →
  (nonempty_file w path = true ∨ (0 < String.length data)%nat) →
  nonempty_file w' path = true.
Proof.
  intros Hstep Hlen. pose proof (file_step_content _ _ _ _ Hstep) as Hc.
  destruct Hstep as (_ & _ & _ & _ & _ & f' & Hf' & _ & _).
  unfold nonempty_file, file_content in *. rewrite Hf' in Hc |- *. rewrite Hc.
  rewrite string_length_app. apply Z.ltb_lt.
  destruct Hlen as [Hne|Hpos]; [|lia].
  destruct (fs w !! path) as [f|]; [|done]. apply Z.ltb_lt in Hne. lia.
Qed.

(** One call with a non-empty batch on a destination that can be opened:
    the header is written by this call exactly when the file was absent or
    empty before it, it is then the record of the keys of the first row,
    appended before any row, and afterwards the file is there, can still be
    opened and is not empty. *)
Lemma save_to_csv_header first rest path (w : World F) :
  can_append w path →
  ∃ r w' body, save_to_csv (first :: rest) path w = (r, w')
    ∧ r ≠ OutOfFuel
    ∧ trace w' = trace w ++ EvSaveCsv path (S (length rest))
                   :: (if nonempty_file w path then []
                       else [EvWriteHeader path (map fst first)])
    ∧ nonempty_file w' path = true
    ∧ can_append w' path
    ∧ file_step path
        ((if nonempty_file w path then EmptyString
          else Csv.record (map fst first)) +:+ body) w w'
    ∧ (Forall (fun row => ∃ fields, _dict_to_list (map fst first) row = Ok fields)
              (first :: rest)
       → r = Ok tt).
Proof.
  intros Hcan. unfold save_to_csv.
  set (w0 := log_event (EvSaveCsv path (length (first :: rest))) w).
  rewrite (bind_eq _ _ w tt w0) by done.
  rewrite (bind_eq _ _ w0 _ w0 (_file_exists_eq path w0)).
  change (nonempty_file w0 path) with (nonempty_file w path).
  destruct (open_append_step path w0) as (w1 & Hopen & Ht1 & Hs1); [done|].
  rewrite (bind_eq _ _ w0 tt w1 Hopen).
  destruct (file_step_present _ _ _ _ Hs1) as [f1 Hf1].
  assert (Hcan_after : ∀ data w', file_step path data w w' → can_append w' path).
  { intros data w' (_ & _ & _ & _ & _ & f' & Hf' & Hw' & _) f0 Hf0.
    rewrite Hf' in Hf0. injection Hf0 as <-.
    rewrite Hw'. destruct (fs w !! path) as [f|] eqn:Hf; [by apply Hcan|done]. }
  destruct (nonempty_file w path) eqn:Hne; simpl negb; cbv iota.
  - rewrite (bind_eq _ _ w1 tt w1) by done.
    destruct (writerows_step path (map fst first) (first :: rest) w1 f1 Hf1)
      as (r & w2 & body & -> & Hr & Ht2 & Hs2 & Hgood).
    pose proof (file_step_trans _ _ _ w w1 w2 Hs1 Hs2) as Hs.
    exists r, w2, body. split; [done|]. split; [done|].
    split; [by rewrite Ht2, Ht1|].
    split; [apply (nonempty_after_append _ _ w _ Hs); by left|].
    split; [by apply (Hcan_after _ _ Hs)|]. by split.
  - set (w1' := log_event (EvWriteHeader path (map fst first)) w1).
    assert (Hf1' : fs w1' !! path = Some f1) by done.
    destruct (file_write_step path (Csv.record (map fst first)) w1' f1 Hf1')
      as (w2 & Hwr & Ht2 & Hs2).
    assert (Hhdr : writeheader path (map fst first) w1 = (Ok tt, w2)).
    { unfold writeheader. by rewrite (bind_eq _ _ w1 tt w1'). }
    rewrite (bind_eq _ _ w1 tt w2 Hhdr).
    destruct (file_step_present _ _ _ _ Hs2) as [f2 Hf2].
    destruct (writerows_step path (map fst first) (first :: rest) w2 f2 Hf2)
      as (r & w3 & body & -> & Hr & Ht3 & Hs3 & Hgood).
    assert (Hs : file_step path (Csv.record (map fst first) +:+ body) w w3).
    { apply (file_step_trans _ EmptyString _ w w1 w3 Hs1).
      by apply (file_step_trans _ _ _ w1 w2 w3). }
    exists r, w3, body. split; [done|]. split; [done|].
    split; [rewrite Ht3, Ht2; simpl; rewrite Ht1; simpl; by rewrite <- app_assoc|].
    split.
    { apply (nonempty_after_append _ _ w _ Hs). right.
      rewrite string_length_app. pose proof (csv_record_nonempty (map fst first)). lia. }
    split; [by apply (Hcan_after _ _ Hs)|]. by split.
Qed.




End CsvProperties.


(** ** Properties of the pagination loop *)

Section ScrapeProperties.

Context {F : Type} `{PyFloat F}.
Variable env : Env F.

(** The properties of the loop are about pages the parser accepts: [lxml]
    is the document it builds for a markup, and [BeautifulSoup] returns
    it. *)
Variable lxml : string → Bs4.tag.
Let BeautifulSoup : string → res Bs4.tag := Bs4.accepting lxml.
Variable urljoin : string → string → string.

Lemma fetch_html_served site url (w : World F) :
  serves env site →
  fetch_html env url 3 f_1_5 w = (Ok (site url), got url w).
Proof.
  intros Hserves. unfold fetch_html. change (Z.to_nat 3) with 3%nat.
  apply fetch_html_loop_ok. unfold attempt.
  destruct (Hserves (n_get w + 0)%nat url) as (r & -> & Hmsg & <-).
  simpl. unfold raise_for_status. by rewrite Hmsg.
Qed.

Lemma collect_items_wf qs : ∃ items, collect_items qs = Ok items ∧ wf_items items.
Proof.
  induction qs as [|q qs (items & Heq & Hwf)]; simpl.
  - exists []. split; [done|constructor].
  - rewrite quote_item_ok, Heq. simpl. eexists. split; [reflexivity|].
    by constructor.
Qed.

Lemma parse_quotes_wf html :
  ∃ items, parse_quotes BeautifulSoup html = Ok (items, next_of BeautifulSoup html)
           ∧ wf_items items.
Proof.
  unfold next_of, parse_quotes, BeautifulSoup, Bs4.accepting. cbn [res_bind].
  unfold parse_soup.
  destruct (collect_items_wf (Bs4.select Bs4.div_quote (lxml html)))
    as (items & -> & Hwf).
  exists items. split; [|done]. simpl.
  by destruct (Bs4.select_one Bs4.li_next_a (lxml html)).
Qed.

Lemma dict_to_list_wf row :
  map fst row = ["quote"; "author"; "tags"] →
  ∃ fields, _dict_to_list ["quote"; "author"; "tags"] row = Ok fields.
Proof.
  intros Hkeys. unfold _dict_to_list. rewrite Hkeys. simpl. by eexists.
Qed.

Lemma count_app (p : event F → bool) (tr1 tr2 : list (event F)) :
  length (List.filter p (tr1 ++ tr2))
  = (length (List.filter p tr1) + length (List.filter p tr2))%nat.
Proof. by rewrite List.filter_app, length_app. Qed.

Lemma sink_step_refl (w : World F) : sink_step 0 0 w w.
Proof. unfold sink_step. repeat split; lia. Qed.

Lemma sink_step_trans c1 s1 c2 s2 (w1 w2 w3 : World F) :
  sink_step c1 s1 w1 w2 → sink_step c2 s2 w2 w3 → sink_step (c1 + c2) (s1 + s2) w1 w3.
Proof. unfold sink_step. intros (?&?&?&?) (?&?&?&?). repeat split; lia. Qed.

Lemma save_to_csv_ok items path (w : World F) :
  wf_items items →
  can_append w path →
  ∃ w', save_to_csv items path w = (Ok tt, w')
        ∧ can_append w' path ∧ dbs w' = dbs w ∧ sink_step 1 0 w w'.
Proof.
  intros Hwf Hcan. destruct items as [|first rest].
  - eexists. split; [reflexivity|]. repeat split; try done.
    all: simpl; unfold count_gets, count_csv_saves, count_sqlite_saves;
      rewrite count_app; simpl; lia.
  - destruct (save_to_csv_header first rest path w Hcan)
      as (r & w' & body & Heq & _ & Htr & _ & Hcan' & Hstep & Hgood).
    assert (Hfirst : map fst first = ["quote"; "author"; "tags"]) by by inversion Hwf.
    rewrite Hgood in Heq.
    2:{ rewrite Hfirst. eapply Forall_impl; [exact Hwf|]. intros row. apply dict_to_list_wf. }
    exists w'. split; [done|]. split; [done|].
    destruct Hstep as (Hg & _ & _ & Hd & _). split; [done|].
    unfold sink_step, count_gets, count_csv_saves, count_sqlite_saves.
    rewrite Htr, !count_app. split; [done|].
    destruct (nonempty_file w path); simpl; lia.
Qed.

Lemma insert_params_ok rows :
  wf_items rows →
  ∃ params, insert_params rows = Ok params
    ∧ Forall (fun ps => ∃ q a t, ps = [SqlText q; SqlText a; SqlText t]) params.
Proof.
  induction 1 as [|row rows Hrow _ (params & Heq & Hall)]; simpl.
  - exists []. split; [done|constructor].
  - destruct row as [|[k1 q] [|[k2 a] [|[k3 t] [|]]]]; try discriminate.
    injection Hrow as -> -> ->. unfold getitem. simpl. rewrite Heq. simpl.
    eexists. split; [reflexivity|]. constructor; [|done]. by do 3 eexists.
Qed.

Lemma execute_insert_ok (db : gmap string table) t q a tg :
  db !! "quotes" = Some t →
  tbl_columns t = quotes_columns →
  ∃ db' t', Sqlite.execute (InsertInto "quotes" ["quote"; "author"; "tags"]
                              [SqlText q; SqlText a; SqlText tg]) db
            = Ok db'
            ∧ db' !! "quotes" = Some t'
            ∧ tbl_columns t' = quotes_columns.
Proof.
  intros Ht Hcols. unfold Sqlite.execute. rewrite Ht.
  unfold Sqlite.has_column. rewrite Hcols. simpl.
  do 2 eexists. split; [reflexivity|]. unfold Sqlite.record_seq.
  rewrite lookup_insert_ne by done. by rewrite lookup_insert_eq.
Qed.

Lemma executemany_ok params :
  Forall (fun ps => ∃ q a t, ps = [SqlText q; SqlText a; SqlText t]) params →
  ∀ (db : gmap string table) t,
    db !! "quotes" = Some t →
    tbl_columns t = quotes_columns →
    ∃ db' t', Sqlite.executemany "quotes" ["quote"; "author"; "tags"] params db = Ok db'
              ∧ db' !! "quotes" = Some t' ∧ tbl_columns t' = quotes_columns.
Proof.
  induction 1 as [|ps params (q & a & tg & ->) _ IH]; intros db t Ht Hcols;
    cbn [Sqlite.executemany].
  - by exists db, t.
  - destruct (execute_insert_ok db t q a tg Ht Hcols) as (db1 & t' & -> & Ht' & Hcols').
    cbn [res_bind]. by apply (IH db1 t').
Qed.

Lemma save_to_sqlite_ok items path (w : World F) :
  wf_items items →
  db_initialised w path →
  ∃ w', save_to_sqlite items path w = (Ok tt, w')
        ∧ db_initialised w' path ∧ fs w' = fs w ∧ sink_step 0 1 w w'.
Proof.
  intros Hwf (ts & t & Hdb & Ht & Hcols).
  assert (Hcount : sink_step 0 1 w (log_event (EvSaveSqlite path (length items)) w)).
  { unfold sink_step, count_gets, count_csv_saves, count_sqlite_saves. simpl.
    rewrite !count_app. simpl. repeat split; lia. }
  unfold save_to_sqlite.
  rewrite (bind_eq _ _ w tt (log_event (EvSaveSqlite path (length items)) w)) by done.
  destruct items as [|first rest].
  - eexists. split; [reflexivity|]. split; [|done]. by exists ts, t.
  - destruct (insert_params_ok _ Hwf) as (params & Hparams & Hall).
    destruct (executemany_ok params Hall ts t Ht Hcols) as (db' & t' & Hexec & Ht' & Hcols').
    set (w0 := log_event _ w) in *.
    rewrite (bind_eq _ _ w0 ts w0) by (unfold connect; simpl; by rewrite Hdb).
    rewrite (bind_eq _ _ w0 params w0) by (unfold lift; by rewrite Hparams).
    rewrite (bind_eq _ _ w0 db' w0) by (unfold lift; by rewrite Hexec).
    eexists. split; [reflexivity|]. split; [|done].
    exists db', t'. simpl. by rewrite lookup_insert_eq.
Qed.

Lemma init_sqlite_ready path (w : World F) :
  db_ready w path →
  ∃ w', init_sqlite path w = (Ok tt, w')
        ∧ db_initialised w' path ∧ fs w' = fs w ∧ sink_step 0 0 w w'.
Proof.
  unfold db_ready. intros Hready.
  set (tables := match dbs w !! path with Some (Database ts) => ts | _ => ∅ end).
  assert (Hcase : dbs w !! path = Some (Database tables)
                  ∨ dbs w !! path = None ∧ tables = ∅).
  { subst tables. destruct (dbs w !! path) as [[|ts]|]; [done|by left|by right]. }
  rewrite (init_sqlite_eq _ _ _ Hcase). eexists. split; [reflexivity|].
  split; [|split; [done|]].
  - destruct (tables !! "quotes") as [t|] eqn:Hq.
    + exists tables, t. simpl. rewrite lookup_insert_eq. split; [done|].
      split; [exact Hq|]. subst tables.
      destruct (dbs w !! path) as [[|ts]|]; [done| |done]. by rewrite Hq in Hready.
    + exists (<["quotes" := fresh_quotes]> (Sqlite.with_sequence tables)), fresh_quotes.
      simpl. by rewrite !lookup_insert_eq.
  - unfold sink_step, count_gets, count_csv_saves, count_sqlite_saves. simpl.
    rewrite !count_app. simpl. repeat split; lia.
Qed.

Lemma can_append_fs (w w' : World F) path :
  fs w' = fs w → can_append w path → can_append w' path.
Proof. unfold can_append. by intros ->. Qed.

Lemma db_initialised_dbs (w w' : World F) path :
  dbs w' = dbs w → db_initialised w path → db_initialised w' path.
Proof. unfold db_initialised. by intros ->. Qed.



Lemma cycles_trans csv sqlite n1 n2 (w1 w2 w3 : World F) :
  cycles csv sqlite n1 w1 w2 → cycles csv sqlite n2 w2 w3 →
  cycles csv sqlite (n1 + n2) w1 w3.
Proof.
  unfold cycles. intros (?&?&?&?) (?&?&?&?).
  destruct (opt_str_truthy csv), (opt_str_truthy sqlite); repeat split; lia.
Qed.



(** [scrape] up to the loop: the SQLite store, if configured, is
    initialised, and nothing else happens. *)
Lemma scrape_enters_loop fuel limit delay user_agent csv sqlite verbose (w : World F) :
  destinations_ready csv sqlite w →
  ∃ w0, sinks_ready csv sqlite w0 ∧ cycles csv sqlite 0 w w0
    ∧ scrape env BeautifulSoup urljoin fuel limit delay user_agent csv sqlite verbose w
      = scrape_loop env BeautifulSoup urljoin fuel limit delay csv sqlite BASE_URL 0 w0.
Proof.
  intros [Hcsv Hsql]. unfold scrape.
  destruct (opt_str_truthy sqlite) eqn:Hs.
  - destruct (init_sqlite_ready (default EmptyString sqlite) w (Hsql eq_refl))
      as (w0 & Hrun & Hini & Hf & Hg & Hc & Hv & Hq).
    exists w0. rewrite (bind_eq _ _ w tt w0 Hrun). split; [split|split; [|done]].
    + intros Hc'. by apply (can_append_fs w), Hcsv.
    + by rewrite Hs.
    + unfold cycles. rewrite Hg, Hc, Hv, Hq.
      destruct (opt_str_truthy csv), (opt_str_truthy sqlite); repeat split; lia.
  - exists w. rewrite (bind_eq _ _ w tt w) by done. split; [split|split; [|done]].
    + done.
    + intros ?. congruence.
    + unfold cycles.
      destruct (opt_str_truthy csv), (opt_str_truthy sqlite); repeat split; lia.
Qed.


Lemma bind_raise {A B} (m : M F A) (k : A → M F B) w e w1 :
  m w = (Raise e, w1) → bind m k w = (Raise e, w1).
Proof. unfold bind. by intros ->. Qed.

Lemma save_to_csv_refused first rest path (w : World F) f :
  fs w !! path = Some f →
  file_writable f = false →
  save_to_csv (first :: rest) path w
  = (Raise (Exn PermissionError path None),
     log_event (EvSaveCsv path (S (length rest))) w).
Proof.
  intros Hf Hro. unfold save_to_csv.
  set (w0 := log_event (EvSaveCsv path (length (first :: rest))) w).
  rewrite (bind_eq _ _ w tt w0) by done.
  rewrite (bind_eq _ _ w0 _ w0 (_file_exists_eq path w0)).
  apply bind_raise. unfold open_append. simpl. by rewrite Hf, Hro.
Qed.

(** C1, as the code has it. Nothing in [scrape] catches what a sink
    raises. When [init_sqlite] raises, [scrape] raises the same before the
    first fetch. When [save_to_csv] raises on the batch of a page, the loop
    raises the same in the world that call left: [save_to_sqlite] is not
    called for the batch and no further page is fetched. When
    [save_to_sqlite] raises, the loop raises the same, after the CSV sink
    took the batch. In each case [main] returns 1. In particular a CSV
    destination that exists and is not writable stops the run at the first
    page that has a record, after one GET. *)
Theorem sink_failure_aborts_run fuel limit delay user_agent csv sqlite verbose url page
    (w : World F) e :
  (∀ w',
     opt_str_truthy sqlite = true →
     init_sqlite (default EmptyString sqlite) w = (Raise e, w') →
     scrape env BeautifulSoup urljoin fuel limit delay user_agent csv sqlite verbose w
     = (Raise e, w'))
  ∧ (∀ html w1 items next_href w2,
       fetch_html env url 3 f_1_5 w = (Ok html, w1) →
       parse_quotes BeautifulSoup html = Ok (items, next_href) →
       opt_str_truthy csv = true →
       save_to_csv items (default EmptyString csv) w1 = (Raise e, w2) →
       scrape_loop env BeautifulSoup urljoin (S fuel) limit delay csv sqlite url page w
       = (Raise e, w2))
  ∧ (∀ html w1 items next_href w2 w3,
       fetch_html env url 3 f_1_5 w = (Ok html, w1) →
       parse_quotes BeautifulSoup html = Ok (items, next_href) →
       (if opt_str_truthy csv
        then save_to_csv items (default EmptyString csv) else ret tt) w1 = (Ok tt, w2) →
       opt_str_truthy sqlite = true →
       save_to_sqlite items (default EmptyString sqlite) w2 = (Raise e, w3) →
       scrape_loop env BeautifulSoup urljoin (S fuel) limit delay csv sqlite url page w
       = (Raise e, w3))
  ∧ (∀ args w',
       main_scrape env BeautifulSoup urljoin fuel args w = (Raise e, w') →
       is_Exception (exn_class e) = true →
       main env BeautifulSoup urljoin fuel args w = (Ok 1, w'))
  ∧ (∀ site first rest next_href f,
       serves env site →
       parse_quotes BeautifulSoup (site url) = Ok (first :: rest, next_href) →
       opt_str_truthy csv = true →
       fs w !! default EmptyString csv = Some f →
       file_writable f = false →
       scrape_loop env BeautifulSoup urljoin (S fuel) limit delay csv sqlite url page w
       = (Raise (Exn PermissionError (default EmptyString csv) None),
          log_event (EvSaveCsv (default EmptyString csv) (S (length rest))) (got url w))).
Proof.
  assert (Hcsv_fails : ∀ html w1 items next_href w2 e',
            fetch_html env url 3 f_1_5 w = (Ok html, w1) →
            parse_quotes BeautifulSoup html = Ok (items, next_href) →
            opt_str_truthy csv = true →
            save_to_csv items (default EmptyString csv) w1 = (Raise e', w2) →
            scrape_loop env BeautifulSoup urljoin (S fuel) limit delay csv sqlite url page w
            = (Raise e', w2)).
  { intros html w1 items next_href w2 e' Hfetch Hparse Hcsv Hsave. cbn [scrape_loop].
    rewrite (bind_eq _ _ w html w1 Hfetch).
    rewrite (bind_eq _ _ w1 (items, next_href) w1) by (unfold lift; by rewrite Hparse).
    cbn [fst snd]. rewrite Hcsv. by apply bind_raise. }
  split; [|split; [|split; [|split]]].
  - intros w' Hs Hinit. unfold scrape. rewrite Hs. by apply bind_raise.
  - intros html w1 items next_href w2. apply Hcsv_fails.
  - intros html w1 items next_href w2 w3 Hfetch Hparse Hcsv Hs Hsave. cbn [scrape_loop].
    rewrite (bind_eq _ _ w html w1 Hfetch).
    rewrite (bind_eq _ _ w1 (items, next_href) w1) by (unfold lift; by rewrite Hparse).
    cbn [fst snd]. rewrite (bind_eq _ _ w1 tt w2 Hcsv), Hs. by apply bind_raise.
  - intros args w' Hrun Hexc. unfold main. rewrite Hrun.
    destruct (exn_class e); try done.
  - intros site first rest next_href f Hserves Hparse Hcsv Hf Hro.
    apply (Hcsv_fails (site url) (got url w) (first :: rest) next_href); try done.
    + by apply fetch_html_served.
    + by apply (save_to_csv_refused _ _ _ _ f).
Qed.

(** C2, as the code has it. [main] leaves the world as [scrape] left it
    and returns 0 when the loop stopped at the page limit, 0 as well when
    it stopped for want of a next page, 1 when [scrape] raised the
    [RuntimeError] of an exhausted fetch or any other [Exception], and 2
    when it raised [KeyboardInterrupt]. An exception of [fetch_html] on any
    page leaves the loop as it is. *)
Theorem main_exit_indicator fuel args (w : World F) :
  let r := main_scrape env BeautifulSoup urljoin fuel args w in
  let m := main env BeautifulSoup urljoin fuel args w in
  snd m = snd r
  ∧ (fst r = Ok Reached_page_limit → fst m = Ok 0)
  ∧ (fst r = Ok No_next_page_link → fst m = Ok 0)
  ∧ (∀ e, fst r = Raise e → exn_class e = RuntimeError → fst m = Ok 1)
  ∧ (∀ e, fst r = Raise e → exn_class e = KeyboardInterrupt → fst m = Ok 2)
  ∧ (∀ e, fst r = Raise e → exn_class e ≠ KeyboardInterrupt → fst m = Ok 1)
  ∧ (∀ limit delay csv sqlite url page e w1,
       fetch_html env url 3 f_1_5 w = (Raise e, w1) →
       scrape_loop env BeautifulSoup urljoin (S fuel) limit delay csv sqlite url page w
       = (Raise e, w1)).
Proof.
  intros r m. subst r m. unfold main.
  destruct (main_scrape env BeautifulSoup urljoin fuel args w) as [[reason|e|] w'] eqn:Hrun;
    simpl.
  - repeat split; try done. intros. cbn [scrape_loop]. by apply bind_raise.
  - split; [by destruct (exn_class e)|].
    split; [done|]. split; [done|].
    split; [intros ? [= <-] ->; done|].
    split; [intros ? [= <-] ->; done|].
    split; [intros ? [= <-] Hne; by destruct (exn_class e)|].
    intros. cbn [scrape_loop]. by apply bind_raise.
  - repeat split; try done. intros. cbn [scrape_loop]. by apply bind_raise.
Qed.

End ScrapeProperties.



(** C1, as stated, fails on a CSV destination that cannot be written:
    with both sinks configured, the SQLite sink never receives the batch
    of the first page (its table stays empty), the second page, to which
    the first links, is never fetched, and the run ends with 1. *)
Lemma csv_failure_stops_the_run :
  let r := main (Fixture.env_of Fixture.two_pages) Fixture.lxml Fixture.urljoin 10
             (Fixture.args "data.csv" "data.db" 0) Fixture.read_only_csv in
  fst r = Ok 1
  ∧ trace (snd r)
    = [EvInitSqlite "data.db"; EvGet BASE_URL; EvSaveCsv "data.csv" 1]
  ∧ parse_quotes Fixture.lxml "page 1"
    = Ok ([[("quote", "It is a truth."); ("author", "Jane Austen");
            ("tags", "love, truth")]],
          Some "/page/2/")
  ∧ dbs (snd r) !! "data.db"
    = Some (Database (<["quotes" := fresh_quotes]>
                        (<["sqlite_sequence" := Sqlite.empty_sequence]> ∅))).
Proof. repeat split; vm_compute; reflexivity. Qed.

(** C2, as stated, fails on the two ways to complete: a run that stops at
    the page limit and a run that stops for want of a next page both end
    with 0. *)
Lemma completed_runs_share_exit_indicator :
  fst (main_scrape (Fixture.env_of Fixture.endless) Fixture.lxml Fixture.urljoin 10
         (Fixture.args "data.csv" EmptyString 2) Fixture.empty_world)
  = Ok Reached_page_limit
  ∧ fst (main_scrape (Fixture.env_of Fixture.two_pages) Fixture.lxml Fixture.urljoin 10
           (Fixture.args "data.csv" EmptyString 0) Fixture.empty_world)
    = Ok No_next_page_link
  ∧ fst (main (Fixture.env_of Fixture.endless) Fixture.lxml Fixture.urljoin 10
           (Fixture.args "data.csv" EmptyString 2) Fixture.empty_world)
    = Ok 0
  ∧ fst (main (Fixture.env_of Fixture.two_pages) Fixture.lxml Fixture.urljoin 10
           (Fixture.args "data.csv" EmptyString 0) Fixture.empty_world)
    = Ok 0.
Proof. repeat split; vm_compute; reflexivity. Qed.

(** The two ways to abort, on the fixtures: 1 when the server is down, 2
    when the user interrupts the first round trip. *)
Example aborted_runs_exit_indicators :
  fst (main (Fixture.env_of Fixture.down) Fixture.lxml Fixture.urljoin 10
         (Fixture.args "data.csv" EmptyString 0) Fixture.empty_world)
  = Ok 1
  ∧ fst (main (Fixture.env_of Fixture.interrupted) Fixture.lxml Fixture.urljoin 10
           (Fixture.args "data.csv" EmptyString 0) Fixture.empty_world)
    = Ok 2.
Proof. split; vm_compute; reflexivity. Qed.

(** C1 on the site of two pages with a CSV destination that cannot be
    written: the loop raises [PermissionError] after the GET of the first
    page, the batch handed to the CSV sink only. *)
Lemma sink_failure_aborts_run_read_only_csv :
  scrape_loop (Fixture.env_of Fixture.two_pages) Fixture.lxml Fixture.urljoin 10
    None 1%Q (Some "data.csv") (Some "data.db") BASE_URL 0 Fixture.read_only_csv
  = (Raise (Exn PermissionError "data.csv" None),
     log_event (EvSaveCsv "data.csv" 1) (got BASE_URL Fixture.read_only_csv)).
Proof.
  destruct (sink_failure_aborts_run (Fixture.env_of Fixture.two_pages) Fixture.parsed
              Fixture.urljoin 9 None 1%Q None (Some "data.csv") (Some "data.db") false
              BASE_URL 0 Fixture.read_only_csv
              (Exn PermissionError "data.csv" None))
    as (_ & _ & _ & _ & Hro).
  apply (Hro (fun url => if String.eqb url BASE_URL then "page 1" else "page 2")
             [("quote", "It is a truth."); ("author", "Jane Austen");
              ("tags", "love, truth")]
             [] (Some "/page/2/")
             {| file_writable := false; file_data := EmptyString |}).
  - intros n url. eexists. repeat split; reflexivity.
  - reflexivity.
  - reflexivity.
  - reflexivity.
  - reflexivity.
Defined.

(** The extractor on a damaged page: a record without author and tags, an
    empty record nested in it, and a next link without [href]. Both records
    are kept, in document order, and the next reference is [None]. *)
Example parse_quotes_on_damaged_page :
  parse_quotes
    (Bs4.accepting (fun _ => Fixture.document
       [ Bs4.Tag "div" ["quote"] ∅
           [ Bs4.Tag "span" ["text"] ∅ [Bs4.NavigableString "  First  "];
             Bs4.Tag "div" ["quote"; "inner"] ∅ [] ];
         Bs4.Tag "li" ["next"] ∅ [Bs4.Tag "a" [] ∅ []] ]))
    "<html>"
  = Ok ([ [("quote", "First"); ("author", EmptyString); ("tags", EmptyString)];
          [("quote", EmptyString); ("author", EmptyString); ("tags", EmptyString)] ],
        None).
Proof. reflexivity. Qed.

(** [get_text(strip=True)] removes the white space of [str.strip()], a
    no-break space as well as a blank. *)
Example get_text_strips_unicode_white_space :
  Bs4.get_text
    (Fixture.document
       [Bs4.NavigableString
          (Fixture.no_break_space +:+ " So it goes. " +:+ Fixture.no_break_space)])
  = "So it goes.".
Proof. reflexivity. Qed.

(** ** Further properties of the retrying fetcher *)

Section FetchBounds.

Context {F : Type} `{PyFloat F}.
Variable env : Env F.

(** Whatever the server, the generator and the user do, the loop leaves
    files and databases alone, makes at most [todo] GETs, and sleeps at
    most once per GET. *)
Lemma fetch_html_loop_frame url retries backoff todo :
  ∀ a last (w : World F),
    let r := fetch_html_loop env url retries backoff todo a last w in
    fst r ≠ OutOfFuel
    ∧ fs (snd r) = fs w ∧ dbs (snd r) = dbs w
    ∧ (n_get w ≤ n_get (snd r) ≤ n_get w + todo)%nat
    ∧ (n_sleep w ≤ n_sleep (snd r))%nat
    ∧ (n_sleep (snd r) - n_sleep w ≤ n_get (snd r) - n_get w)%nat.
Proof.
  induction todo as [|t IH]; intros a last w r.
  - subst r. simpl. repeat split; try done; lia.
  - subst r.
    remember (fetch_html_loop env url retries backoff (S t) a last w) as r eqn:Hr.
    cbn [fetch_html_loop] in Hr. unfold try_except_Exception in Hr.
    rewrite transport_eq in Hr.
    destruct (attempt_result (http_get env (n_get w) url)) as [body|e|] eqn:Hatt.
    + subst r. unfold got. simpl. repeat split; try done; lia.
    + destruct (is_Exception (exn_class e));
        [|subst r; unfold got; simpl; repeat split; try done; lia].
      unfold bind at 1, py_pow in Hr.
      destruct (f_pow backoff a) as [p|];
        [|subst r; unfold got; simpl; repeat split; try done; lia].
      unfold ret at 1, bind at 1, random_uniform, bind at 1, time_sleep in Hr.
      cbn [n_rand got n_sleep] in Hr.
      destruct (f_sleep_error _);
        [subst r; unfold got; simpl; repeat split; try done; lia|].
      destruct (sigint_in_sleep env (n_sleep w));
        [subst r; unfold got; simpl; repeat split; try done; lia|].
      match type of Hr with
      | _ = fetch_html_loop env url retries backoff t ?a' ?l' ?w' =>
          destruct (IH a' l' w') as (Hf & Hfs & Hdb & Hg & Hs & Hsg)
      end.
      rewrite <- Hr in Hf, Hfs, Hdb, Hg, Hs, Hsg.
      unfold got in *. simpl in Hfs, Hdb, Hg, Hs, Hsg.
      repeat split; try done; lia.
    + by destruct (attempt_result_fuel (http_get env (n_get w) url)).
Qed.

Lemma fetch_html_attempts_bounded_aux url (w : World F) :
  fs (snd (fetch_html env url 3 f_1_5 w)) = fs w
  ∧ dbs (snd (fetch_html env url 3 f_1_5 w)) = dbs w.
Proof.
  unfold fetch_html.
  by destruct (fetch_html_loop_frame url 3 f_1_5 (Z.to_nat 3) 1 None w)
    as (_ & Hfs & Hdb & _).
Qed.

(** X7. In every environment [fetch_html] makes at most [retries] GETs
    (none when [retries] is not positive), sleeps at most once per GET it
    made, and changes no file and no database. *)
Theorem fetch_html_attempts_bounded url retries backoff (w : World F) :
  let r := fetch_html env url retries backoff w in
  (n_get w ≤ n_get (snd r) ≤ n_get w + Z.to_nat retries)%nat
  ∧ (n_sleep (snd r) - n_sleep w ≤ n_get (snd r) - n_get w)%nat
  ∧ fs (snd r) = fs w ∧ dbs (snd r) = dbs w.
Proof.
  intros r. subst r. unfold fetch_html.
  destruct (fetch_html_loop_frame url retries backoff (Z.to_nat retries) 1 None w)
    as (_ & Hfs & Hdb & Hg & _ & Hs).
  done.
Qed.

(** X8. A [KeyboardInterrupt] raised by a GET is not retried: when the
    attempts before the k-th failed as transport failures and the k-th is
    interrupted, [fetch_html] raises that [KeyboardInterrupt] at once,
    after [k + 1] GETs and [k] sleeps. *)
Theorem fetch_html_interrupt_escapes url N backoff (w : World F) k e :
  uninterrupted env →
  waits_accepted env backoff (Z.of_nat k) →
  transport_failures env url w k →
  (∀ j, (j < k)%nat → ∀ b, attempt env url w j ≠ Ok b) →
  (k < Z.to_nat N)%nat →
  attempt env url w k = Raise e →
  is_Exception (exn_class e) = false →
  let r := fetch_html env url N backoff w in
  fst r = Raise e
  ∧ n_get (snd r) = (n_get w + S k)%nat
  ∧ n_sleep (snd r) = (n_sleep w + k)%nat.
Proof.
  intros Hint Hwait Htrans Hfail Hk Hatt Hexc r. subst r. unfold fetch_html.
  assert (Hgen : ∀ k todo (w : World F) a last,
            (k < todo)%nat →
            (∀ j n, a ≤ j < a + Z.of_nat k →
               ∃ d, backoff_wait env backoff j n = Some d ∧ f_sleep_error d = None) →
            transport_failures env url w k →
            (∀ j, (j < k)%nat → ∀ b, attempt env url w j ≠ Ok b) →
            attempt env url w k = Raise e →
            fst (fetch_html_loop env url N backoff todo a last w) = Raise e
            ∧ n_get (snd (fetch_html_loop env url N backoff todo a last w))
              = (n_get w + S k)%nat
            ∧ n_sleep (snd (fetch_html_loop env url N backoff todo a last w))
              = (n_sleep w + k)%nat).
  { clear k w Hwait Htrans Hfail Hk Hatt.
    induction k as [|k IH]; intros todo w a last Hk Hwait Htrans Hfail Hatt;
      (destruct todo as [|t]; [lia|]).
    - cbn [fetch_html_loop]. unfold try_except_Exception. rewrite transport_eq.
      unfold attempt in Hatt. rewrite Nat.add_0_r in Hatt. rewrite Hatt, Hexc. simpl.
      repeat split; lia.
    - destruct (attempt env url w 0%nat) as [b|e0|] eqn:Hatt0.
      + by destruct (Hfail 0%nat ltac:(lia) b).
      + assert (Hexc0 : is_Exception (exn_class e0) = true).
        { apply RequestException_is_Exception, (Htrans 0%nat); [lia|done]. }
        destruct (Hwait a (n_rand w) ltac:(lia)) as (d & Hd & Hsl).
        rewrite (fetch_html_loop_retry _ _ _ _ _ _ _ _ _ d Hatt0 Hexc0 Hd Hsl (Hint _)).
        destruct (IH t (retried url d w) (a + 1) (Some e0)) as (Hr & Hg & Hs).
        * lia.
        * intros j n Hj. apply Hwait. lia.
        * intros j e' Hj. rewrite attempt_retried. apply Htrans. lia.
        * intros j Hj b. rewrite attempt_retried. apply Hfail. lia.
        * by rewrite attempt_retried.
        * rewrite Hr, Hg, Hs. simpl. repeat split; lia.
      + by destruct (attempt_result_fuel (http_get env (n_get w + 0) url)). }
  apply Hgen; try done.
  intros j n Hj. apply Hwait. lia.
Qed.

(** X9. A wait that [time.sleep] refuses ends the retries: when the
    first attempt fails as an [Exception] and the wait computed for it is
    refused (a negative backoff makes it negative), [fetch_html] raises
    the exception of [time.sleep], not its [RuntimeError], after one GET
    and without sleeping. *)
Theorem fetch_html_refused_wait_escapes url N backoff (w : World F) e d c :
  0 < N →
  attempt env url w 0%nat = Raise e →
  is_Exception (exn_class e) = true →
  backoff_wait env backoff 1 (n_rand w) = Some d →
  f_sleep_error d = Some c →
  let r := fetch_html env url N backoff w in
  (∃ x, fst r = Raise x ∧ exn_class x = c)
  ∧ n_get (snd r) = S (n_get w)
  ∧ n_sleep (snd r) = n_sleep w.
Proof.
  intros HN Hatt Hexc Hwait Hd r.
  assert (Heq : r = (Raise (Exn c "sleep length" None),
                     {| n_get := S (n_get w); n_rand := S (n_rand w);
                        n_sleep := n_sleep w; trace := trace w ++ [EvGet url];
                        fs := fs w; dbs := dbs w |})).
  { subst r. unfold fetch_html.
    destruct (Z.to_nat N) as [|t] eqn:Ht; [lia|].
    cbn [fetch_html_loop]. unfold try_except_Exception. rewrite transport_eq.
    unfold attempt in Hatt. rewrite Nat.add_0_r in Hatt. rewrite Hatt, Hexc.
    unfold backoff_wait, jitter in Hwait.
    unfold bind at 1, py_pow. destruct (f_pow backoff 1) as [p|]; [|done].
    injection Hwait as <-.
    unfold ret at 1, bind at 1, random_uniform, bind at 1, time_sleep.
    cbn [n_rand got]. by rewrite Hd. }
  rewrite Heq. split; [by eexists|done].
Qed.

End FetchBounds.

(** X8 on a user who interrupts the first round trip. *)
Lemma fetch_html_interrupt_escapes_first :
  fst (fetch_html (Fixture.env_of Fixture.interrupted) "u" 3 f_1_5 Fixture.empty_world)
  = Raise (Exn KeyboardInterrupt EmptyString None).
Proof.
  destruct (fetch_html_interrupt_escapes (Fixture.env_of Fixture.interrupted) "u" 3
              f_1_5 Fixture.empty_world 0 (Exn KeyboardInterrupt EmptyString None))
    as [Hr _].
  - intros n. reflexivity.
  - intros k n Hk. simpl in Hk. lia.
  - intros k e' Hk. lia.
  - intros j Hj. lia.
  - simpl. lia.
  - reflexivity.
  - reflexivity.
  - exact Hr.
Defined.

(** X9 with a backoff of -2 against a server that is down: the first
    wait would be -2 + 0.1 seconds. *)
Lemma fetch_html_refused_wait_escapes_negative :
  ∃ x, fst (fetch_html (Fixture.env_of Fixture.down) "u" 3 (-2 # 1)%Q
              Fixture.empty_world)
       = Raise x
       ∧ exn_class x = ValueError.
Proof.
  destruct (fetch_html_refused_wait_escapes (Fixture.env_of Fixture.down) "u" 3
              (-2 # 1)%Q Fixture.empty_world
              (Exn ConnectionError "connection refused" None) (-19 # 10)%Q ValueError)
    as [Hr _].
  - lia.
  - reflexivity.
  - reflexivity.
  - reflexivity.
  - reflexivity.
  - exact Hr.
Defined.

(** ** Further properties of the sinks *)

Section SinkProperties.

Context {F : Type} `{PyFloat F}.

Lemma fetched_app (tr1 tr2 : list (event F)) :
  fetched (tr1 ++ tr2) = fetched tr1 ++ fetched tr2.
Proof.
  induction tr1 as [|e tr1 IH]; [done|]. destruct e; simpl; by rewrite IH.
Qed.

(** [_file_exists] never raises and changes nothing; it answers [True]
    exactly when the path holds a file of at least one byte, so a missing
    file and an empty file are told alike. *)
Lemma _file_exists_answers_nonempty path (w : World F) :
  ∃ b, _file_exists path w = (Ok b, w)
       ∧ (b = true ↔ ∃ f, fs w !! path = Some f ∧ file_data f ≠ EmptyString).
Proof.
  exists (nonempty_file w path). split; [apply _file_exists_eq|].
  unfold nonempty_file. destruct (fs w !! path) as [f|]; split.
  - intros Hpos. exists f. split; [done|]. intros Hd. by rewrite Hd in Hpos.
  - intros (f' & [= <-] & Hne). destruct (file_data f); [done|].
    apply Z.ltb_lt. simpl. lia.
  - done.
  - by intros (f' & ? & _).
Qed.







(** What every call of [save_to_csv] keeps, whatever the rows and the
    state of the destination. *)
Lemma save_to_csv_frame rows path (w : World F) :
  let r := save_to_csv rows path w in
  fst r ≠ OutOfFuel
  ∧ n_get (snd r) = n_get w ∧ n_rand (snd r) = n_rand w ∧ n_sleep (snd r) = n_sleep w
  ∧ dbs (snd r) = dbs w
  ∧ fetched (trace (snd r)) = fetched (trace w)
  ∧ (∀ p, p ≠ path → fs (snd r) !! p = fs w !! p)
  ∧ (∃ data, file_content (snd r) path = file_content w path +:+ data)
  ∧ (rows = [] → fst r = Ok tt ∧ fs (snd r) = fs w).
Proof.
  intros r. subst r. destruct rows as [|first rest].
  - simpl. rewrite fetched_app, app_nil_r. repeat split; try done.
    exists EmptyString. by rewrite string_app_nil_r.
  - destruct (fs w !! path) as [f|] eqn:Hf.
    + destruct (file_writable f) eqn:Hw.
      * assert (Hcan : can_append w path) by (intros f' Hf'; congruence).
        destruct (save_to_csv_header first rest path w Hcan)
          as (r & w' & body & -> & Hr & Htr & _ & _ & Hstep & _).
        pose proof (file_step_content _ _ _ _ Hstep) as Hc.
        destruct Hstep as (Hg & Hrd & Hsl & Hd & Ho & _). simpl.
        rewrite Htr, fetched_app.
        assert (fetched (EvSaveCsv path (S (length rest))
                         :: (if nonempty_file w path then []
                             else [EvWriteHeader path (map fst first)])) = []) as ->
          by by destruct (nonempty_file w path).
        rewrite app_nil_r. repeat split; try done. by eexists.
      * rewrite (save_to_csv_refused first rest path w f Hf Hw). simpl.
        rewrite fetched_app, app_nil_r. repeat split; try done.
        exists EmptyString. by rewrite string_app_nil_r.
    + assert (Hcan : can_append w path) by (intros f' Hf'; congruence).
      destruct (save_to_csv_header first rest path w Hcan)
        as (r & w' & body & -> & Hr & Htr & _ & _ & Hstep & _).
      pose proof (file_step_content _ _ _ _ Hstep) as Hc.
      destruct Hstep as (Hg & Hrd & Hsl & Hd & Ho & _). simpl.
      rewrite Htr, fetched_app.
      assert (fetched (EvSaveCsv path (S (length rest))
                       :: (if nonempty_file w path then []
                           else [EvWriteHeader path (map fst first)])) = []) as ->
        by by destruct (nonempty_file w path).
      rewrite app_nil_r. repeat split; try done. by eexists.
Qed.

(** X3. [save_to_csv] only ever appends to its destination: whatever the
    rows and whether it returns or raises, the bytes the file held remain
    its beginning, nothing at another path changes, and an empty batch
    changes no file at all, not even creating the destination. *)
Theorem save_to_csv_appends_only rows path (w : World F) :
  let w' := snd (save_to_csv rows path w) in
  (∃ data, file_content w' path = file_content w path +:+ data)
  ∧ (∀ p, p ≠ path → fs w' !! p = fs w !! p ∧ dbs w' !! p = dbs w !! p)
  ∧ (rows = [] → fst (save_to_csv rows path w) = Ok tt ∧ fs w' = fs w).
Proof.
  intros w'. subst w'.
  destruct (save_to_csv_frame rows path w) as (_ & _ & _ & _ & Hd & _ & Ho & Hc & Hnil).
  split; [done|]. split; [|done].
  intros p Hp. split; [by apply Ho|by rewrite Hd].
Qed.

End SinkProperties.

Section SqliteSinkProperties.

Context {F : Type} `{PyFloat F}.








(** What every call of [save_to_sqlite] keeps, whatever the rows and the
    state of the destination. *)
Lemma save_to_sqlite_frame rows path (w : World F) :
  let r := save_to_sqlite rows path w in
  fst r ≠ OutOfFuel
  ∧ n_get (snd r) = n_get w ∧ n_rand (snd r) = n_rand w ∧ n_sleep (snd r) = n_sleep w
  ∧ fs (snd r) = fs w
  ∧ fetched (trace (snd r)) = fetched (trace w)
  ∧ (∀ p, p ≠ path → dbs (snd r) !! p = dbs w !! p)
  ∧ (fst r ≠ Ok tt → dbs (snd r) = dbs w)
  ∧ (rows = [] → fst r = Ok tt ∧ dbs (snd r) = dbs w).
Proof.
  intros r.
  assert (Hcases : (r = (Ok tt, log_event (EvSaveSqlite path (length rows)) w)
                    ∧ rows = [])
                   ∨ (∃ e, r = (Raise e, log_event (EvSaveSqlite path (length rows)) w)
                           ∧ rows ≠ [])
                   ∨ (∃ ts, r = (Ok tt,
                                 set_dbs (<[path := Database ts]> (dbs w))
                                         (log_event (EvSaveSqlite path (length rows)) w))
                            ∧ rows ≠ [])).
  { assert (Hparams : ∀ l, insert_params l ≠ OutOfFuel).
    { induction l as [|row l IH]; [done|]. cbn [insert_params]. unfold getitem.
      destruct (Sqlite.assoc "quote" row); [|done].
      destruct (Sqlite.assoc "author" row); [|done].
      destruct (Sqlite.assoc "tags" row); [|done]. simpl.
      by destruct (insert_params l). }
    assert (Hmany : ∀ params ts,
              Sqlite.executemany "quotes" ["quote"; "author"; "tags"] params ts
              ≠ OutOfFuel).
    { induction params as [|ps params IH]; intros ts; [done|].
      cbn [Sqlite.executemany].
      destruct (Sqlite.execute _ ts) as [ts1|e|] eqn:He; simpl; [apply IH|done|].
      unfold Sqlite.execute in He.
      destruct (ts !! "quotes"); [|done].
      destruct (List.find _ _); [done|]. by destruct (List.find _ _) as [[]|]. }
    subst r. remember (save_to_sqlite rows path w) as r eqn:Hr.
    unfold save_to_sqlite in Hr.
    set (w0 := log_event (EvSaveSqlite path (length rows)) w) in *.
    rewrite (bind_eq _ _ w tt w0) in Hr by done.
    destruct rows as [|first rest]; [by left|]. right.
    unfold bind at 1, connect in Hr. cbn [dbs log_event w0] in Hr.
    assert (Hrest : ∀ ts,
              r = bind (lift (insert_params (first :: rest)))
                    (fun params =>
                       bind (lift (Sqlite.executemany "quotes"
                                     ["quote"; "author"; "tags"] params ts))
                            (fun con' => commit path con')) w0 →
              (∃ e, r = (Raise e, w0) ∧ first :: rest ≠ [])
              ∨ (∃ ts', r = (Ok tt, set_dbs (<[path := Database ts']> (dbs w)) w0)
                        ∧ first :: rest ≠ [])).
    { intros ts ->. unfold bind at 1, lift at 1.
      destruct (insert_params (first :: rest)) as [params|e|] eqn:Hp;
        [|left; by eexists|by destruct (Hparams (first :: rest))].
      unfold bind, lift.
      destruct (Sqlite.executemany _ _ params ts) as [ts'|e|] eqn:Hm;
        [right; by exists ts'|left; by eexists|by destruct (Hmany params ts)]. }
    destruct (dbs w !! path) as [[|ts]|].
    - left. by eexists.
    - by apply (Hrest ts).
    - by apply (Hrest ∅). }
  destruct Hcases as [[-> Hnil]|[(e & -> & Hne)|(ts & -> & Hne)]]; simpl;
    rewrite fetched_app, app_nil_r; repeat split; try done.
  intros p Hp. by rewrite lookup_insert_ne.
Qed.

(** X5. A batch reaches the store whole or not at all: when
    [save_to_sqlite] raises, for a row without one of the three keys or a
    statement the store refuses, a connection finds at every path the
    tables and rows it found before the call. In every case nothing at
    another path changes, and an empty batch changes nothing. *)
Theorem save_to_sqlite_all_or_nothing rows path (w : World F) :
  let r := save_to_sqlite rows path w in
  (fst r ≠ Ok tt → ∀ p, db_content (snd r) p = db_content w p)
  ∧ (∀ p, p ≠ path → fs (snd r) !! p = fs w !! p ∧ dbs (snd r) !! p = dbs w !! p)
  ∧ (rows = [] → fst r = Ok tt ∧ fs (snd r) = fs w ∧ dbs (snd r) = dbs w).
Proof.
  intros r. subst r.
  destruct (save_to_sqlite_frame rows path w) as (_ & _ & _ & _ & Hf & _ & Ho & Hfail & Hnil).
  split; [|split].
  - intros Hr p. unfold db_content. by rewrite (Hfail Hr).
  - intros p Hp. split; [by rewrite Hf|by apply Ho].
  - intros Hrows. destruct (Hnil Hrows) as [Hr Hd]. done.
Qed.

(** X6. Without the table [quotes], on a path that holds no file or a
    database that lacks the table, a batch of parsed items that is not
    empty makes [save_to_sqlite] raise [OperationalError], and no table
    and no row is stored: a connection finds at every path what it found
    before. *)
Theorem save_to_sqlite_without_table first rest path (w : World F) :
  wf_items (first :: rest) →
  (dbs w !! path = None
   ∨ ∃ ts, dbs w !! path = Some (Database ts) ∧ ts !! "quotes" = None) →
  let r := save_to_sqlite (first :: rest) path w in
  fst r = Raise (Exn OperationalError "no such table: quotes" None)
  ∧ ∀ p, db_content (snd r) p = db_content w p.
Proof.
  intros Hwf Hdb r.
  assert (∃ ts : gmap string table,
            connect path (log_event (EvSaveSqlite path (length (first :: rest))) w)
            = (Ok ts, log_event (EvSaveSqlite path (length (first :: rest))) w)
            ∧ ts !! "quotes" = None) as (ts & Hcon & Hq).
  { unfold connect. simpl. destruct Hdb as [->|(ts & -> & Hq)]; [by exists ∅|by exists ts]. }
  assert (Heq : r = (Raise (Exn OperationalError "no such table: quotes" None),
                     log_event (EvSaveSqlite path (length (first :: rest))) w)).
  { subst r. unfold save_to_sqlite.
    set (w0 := log_event (EvSaveSqlite path (length (first :: rest))) w) in *.
    rewrite (bind_eq _ _ w tt w0) by done.
    rewrite (bind_eq _ _ w0 ts w0 Hcon).
    destruct (insert_params_ok _ Hwf) as (params & Hp & Hall).
    rewrite (bind_eq _ _ w0 params w0) by (unfold lift; by rewrite Hp).
    apply bind_raise. unfold lift.
    destruct params as [|ps params].
    { cbn [insert_params] in Hp. unfold getitem in Hp.
      destruct (Sqlite.assoc "quote" first); [|done].
      destruct (Sqlite.assoc "author" first); [|done].
      destruct (Sqlite.assoc "tags" first); [|done]. simpl in Hp.
      by destruct (insert_params rest). }
    cbn [Sqlite.executemany]. unfold Sqlite.execute. by rewrite Hq. }
  by rewrite Heq.
Qed.

End SqliteSinkProperties.

(** ** Further properties of the pagination loop and of [main] *)

Section CrawlProperties.

Context {F : Type} `{PyFloat F}.
Variable env : Env F.

(** The properties of the loop are about pages the parser accepts: [lxml]
    is the document it builds for a markup, and [BeautifulSoup] returns
    it. *)
Variable lxml : string → Bs4.tag.
Let BeautifulSoup : string → res Bs4.tag := Bs4.accepting lxml.
Variable urljoin : string → string → string.

Lemma polite_delay_frame delay (w : World F) :
  let r := polite_delay env delay w in
  fst r ≠ OutOfFuel
  ∧ n_get (snd r) = n_get w
  ∧ fs (snd r) = fs w ∧ dbs (snd r) = dbs w
  ∧ fetched (trace (snd r)) = fetched (trace w).
Proof.
  intros r. subst r. unfold polite_delay, bind, random_uniform.
  destruct (f_truthy (f_max f_zero _)); [|by simpl].
  unfold time_sleep. destruct (f_sleep_error _); [by simpl|]. cbn [n_sleep].
  destruct (sigint_in_sleep env (n_sleep w)); simpl;
    by rewrite fetched_app, app_nil_r.
Qed.

Lemma init_sqlite_frame path (w : World F) :
  let r := init_sqlite path w in
  fst r ≠ OutOfFuel
  ∧ n_get (snd r) = n_get w
  ∧ fs (snd r) = fs w
  ∧ (∀ p, p ≠ path → dbs (snd r) !! p = dbs w !! p)
  ∧ fetched (trace (snd r)) = fetched (trace w).
Proof.
  intros r. subst r. unfold init_sqlite, bind, emit, connect, lift, commit. simpl.
  destruct (dbs w !! path) as [[|ts]|]; simpl.
  - by rewrite fetched_app, app_nil_r.
  - destruct (ts !! "quotes"); simpl; rewrite fetched_app, app_nil_r;
      repeat split; try done; intros p Hp; by rewrite lookup_insert_ne.
  - rewrite lookup_empty. simpl. rewrite fetched_app, app_nil_r.
    repeat split; try done. intros p Hp. by rewrite lookup_insert_ne.
Qed.

Lemma parse_quotes_ok html :
  ∃ items, parse_quotes BeautifulSoup html = Ok (items, next_of BeautifulSoup html).
Proof. destruct (parse_quotes_wf lxml html) as (items & ? & _). by exists items. Qed.

Lemma scrape_loop_writes_only_destinations limit delay csv sqlite (w0 : World F) fuel :
  ∀ url page (w : World F) r w',
    ((∀ p, outside csv p → fs w !! p = fs w0 !! p)
     ∧ (∀ p, outside sqlite p → dbs w !! p = dbs w0 !! p)) →
    scrape_loop env BeautifulSoup urljoin fuel limit delay csv sqlite url page w
    = (r, w') →
    (∀ p, outside csv p → fs w' !! p = fs w0 !! p)
    ∧ (∀ p, outside sqlite p → dbs w' !! p = dbs w0 !! p).
Proof.
  induction fuel as [|fuel IH]; intros url page w r w' [Hfs Hdbs] Hrun.
  { injection Hrun as _ <-. by split. }
  cbn [scrape_loop] in Hrun. unfold bind at 1 in Hrun.
  pose proof (fetch_html_attempts_bounded_aux env url w) as Hfetch.
  destruct (fetch_html env url 3 f_1_5 w) as [[html| |] wa];
    simpl in Hfetch; destruct Hfetch as [Hfa Hda];
    [|injection Hrun as _ <-; rewrite Hfa, Hda; by split..].
  unfold bind at 1, lift at 1 in Hrun.
  destruct (parse_quotes_ok html) as (items & Hparse). rewrite Hparse in Hrun.
  cbn [fst snd] in Hrun. unfold bind at 1 in Hrun.
  assert (Hcsv : ∀ r wb,
            (if opt_str_truthy csv
             then save_to_csv items (default EmptyString csv) else ret tt) wa = (r, wb) →
            (∀ p, outside csv p → fs wb !! p = fs w0 !! p)
            ∧ (∀ p, outside sqlite p → dbs wb !! p = dbs w0 !! p)).
  { intros r1 wb Hrun1. destruct (opt_str_truthy csv) eqn:Hc.
    - pose proof (save_to_csv_frame items (default EmptyString csv) wa) as Hframe.
      rewrite Hrun1 in Hframe. simpl in Hframe.
      destruct Hframe as (_ & _ & _ & _ & Hd & _ & Ho & _).
      split.
      + intros p Hp. rewrite Ho, Hfa; [by apply Hfs|]. by apply Hp.
      + intros p Hp. rewrite Hd, Hda. by apply Hdbs.
    - injection Hrun1 as _ <-. rewrite Hfa, Hda. by split. }
  destruct ((if opt_str_truthy csv
             then save_to_csv items (default EmptyString csv) else ret tt) wa)
    as [[[]| |] wb] eqn:Hrun_b;
    destruct (Hcsv _ _ eq_refl) as [Hfb Hdb];
    [|injection Hrun as _ <-; by split..].
  unfold bind at 1 in Hrun.
  assert (Hsql : ∀ r wc,
            (if opt_str_truthy sqlite
             then save_to_sqlite items (default EmptyString sqlite) else ret tt) wb
            = (r, wc) →
            (∀ p, outside csv p → fs wc !! p = fs w0 !! p)
            ∧ (∀ p, outside sqlite p → dbs wc !! p = dbs w0 !! p)).
  { intros r1 wc Hrun1. destruct (opt_str_truthy sqlite) eqn:Hs.
    - pose proof (save_to_sqlite_frame items (default EmptyString sqlite) wb) as Hframe.
      rewrite Hrun1 in Hframe. simpl in Hframe.
      destruct Hframe as (_ & _ & _ & _ & Hf & _ & Ho & _).
      split.
      + intros p Hp. rewrite Hf. by apply Hfb.
      + intros p Hp. rewrite Ho; [by apply Hdb|]. by apply Hp.
    - injection Hrun1 as _ <-. by split. }
  destruct ((if opt_str_truthy sqlite
             then save_to_sqlite items (default EmptyString sqlite) else ret tt) wb)
    as [[[]| |] wc] eqn:Hrun_c;
    destruct (Hsql _ _ eq_refl) as [Hfc Hdc];
    [|injection Hrun as _ <-; by split..].
  destruct (opt_int_truthy limit && (default 0 limit <=? page + 1));
    [injection Hrun as _ <-; by split|].
  destruct (negb (opt_str_truthy (next_of BeautifulSoup html)));
    [injection Hrun as _ <-; by split|].
  unfold bind at 1 in Hrun.
  pose proof (polite_delay_frame delay wc) as Hpause.
  destruct (polite_delay env delay wc) as [[[]| |] wd]; simpl in Hpause;
    destruct Hpause as (_ & _ & Hfd & Hdd & _);
    [|injection Hrun as _ <-; rewrite Hfd, Hdd; by split..].
  eapply IH; [|exact Hrun]. rewrite Hfd, Hdd. by split.
Qed.

Lemma scrape_frame fuel limit delay user_agent csv sqlite verbose (w : World F) :
  let w' := snd (scrape env BeautifulSoup urljoin fuel limit delay user_agent csv sqlite
                   verbose w) in
  (∀ p, outside csv p → fs w' !! p = fs w !! p)
  ∧ (∀ p, outside sqlite p → dbs w' !! p = dbs w !! p)
  ∧ (opt_str_truthy csv = false → fs w' = fs w)
  ∧ (opt_str_truthy sqlite = false → dbs w' = dbs w).
Proof.
  intros w'.
  assert (Hmain : (∀ p, outside csv p → fs w' !! p = fs w !! p)
                  ∧ (∀ p, outside sqlite p → dbs w' !! p = dbs w !! p)).
  { subst w'.
    destruct (scrape env BeautifulSoup urljoin fuel limit delay user_agent csv sqlite
                verbose w) as [r w'] eqn:Hrun.
    unfold scrape, bind in Hrun. simpl.
    assert (Hinit : ∀ r0 wi,
              (if opt_str_truthy sqlite
               then init_sqlite (default EmptyString sqlite) else ret tt) w = (r0, wi) →
              (∀ p, outside csv p → fs wi !! p = fs w !! p)
              ∧ (∀ p, outside sqlite p → dbs wi !! p = dbs w !! p)).
    { intros r0 wi Hrun0. destruct (opt_str_truthy sqlite) eqn:Hs.
      - pose proof (init_sqlite_frame (default EmptyString sqlite) w) as Hframe.
        rewrite Hrun0 in Hframe. simpl in Hframe.
        destruct Hframe as (_ & _ & Hf & Ho & _).
        split; [intros p _; by rewrite Hf|]. intros p Hp. apply Ho. by apply Hp.
      - injection Hrun0 as _ <-. by split. }
    destruct ((if opt_str_truthy sqlite
               then init_sqlite (default EmptyString sqlite) else ret tt) w)
      as [[[]| |] wi] eqn:Hrun_i;
      destruct (Hinit _ _ eq_refl) as [Hfi Hdi];
      [|injection Hrun as _ <-; by split..].
    by apply (scrape_loop_writes_only_destinations limit delay csv sqlite w fuel
                BASE_URL 0 wi r w'). }
  destruct Hmain as [Hfs Hdbs]. split; [done|]. split; [done|]. split.
  - intros Hc. apply map_eq. intros p. apply Hfs. unfold outside. congruence.
  - intros Hs. apply map_eq. intros p. apply Hdbs. unfold outside. congruence.
Qed.

(** X10. A run writes nowhere but to its two destinations: whatever the
    server, the pages and the outcome, after [scrape] everything at a path
    that is neither the CSV nor the SQLite destination is as before, and
    a run without destinations changes nothing at all. *)
Theorem scrape_writes_only_destinations fuel limit delay user_agent csv sqlite verbose
    (w : World F) :
  let w' := snd (scrape env BeautifulSoup urljoin fuel limit delay user_agent csv sqlite
                   verbose w) in
  (∀ p, outside csv p → outside sqlite p →
        fs w' !! p = fs w !! p ∧ dbs w' !! p = dbs w !! p)
  ∧ (opt_str_truthy csv = false → opt_str_truthy sqlite = false →
     fs w' = fs w ∧ dbs w' = dbs w).
Proof.
  intros w'.
  destruct (scrape_frame fuel limit delay user_agent csv sqlite verbose w)
    as (Hfs & Hdbs & Hnc & Hns).
  split.
  - intros p Hc Hs. split; [by apply Hfs|by apply Hdbs].
  - intros Hc Hs. split; [by apply Hnc|by apply Hns].
Qed.

Lemma scrape_loop_fetches_chain site limit delay csv sqlite :
  serves env site →
  ∀ fuel k page (w : World F) r w',
    scrape_loop env BeautifulSoup urljoin fuel limit delay csv sqlite
      (page_url BeautifulSoup urljoin site k) page w = (r, w') →
    ∃ j, (j ≤ fuel)%nat
         ∧ fetched (trace w')
           = fetched (trace w) ++ map (page_url BeautifulSoup urljoin site) (seq k j).
Proof.
  intros Hserves.
  induction fuel as [|fuel IH]; intros k page w r w' Hrun.
  { injection Hrun as _ <-. exists 0%nat. simpl. by rewrite app_nil_r. }
  set (url := page_url BeautifulSoup urljoin site k) in *.
  assert (Hone : ∀ wx : World F,
            fetched (trace wx) = fetched (trace (got url w)) →
            ∃ j, (j ≤ S fuel)%nat
                 ∧ fetched (trace wx)
                   = fetched (trace w)
                     ++ map (page_url BeautifulSoup urljoin site) (seq k j)).
  { intros wx ->. exists 1%nat. split; [lia|]. simpl. by rewrite fetched_app. }
  cbn [scrape_loop] in Hrun.
  rewrite (bind_eq _ _ w (site url) (got url w)) in Hrun by by apply fetch_html_served.
  destruct (parse_quotes_ok (site url)) as (items & Hparse).
  rewrite (bind_eq _ _ (got url w) (items, next_of BeautifulSoup (site url)) (got url w))
    in Hrun by (unfold lift; by rewrite Hparse).
  cbn [fst snd] in Hrun. unfold bind at 1 in Hrun.
  assert (Hcsv : ∀ r1 wb,
            (if opt_str_truthy csv
             then save_to_csv items (default EmptyString csv) else ret tt) (got url w)
            = (r1, wb) →
            fetched (trace wb) = fetched (trace (got url w))).
  { intros r1 wb Hrun1. destruct (opt_str_truthy csv).
    - pose proof (save_to_csv_frame items (default EmptyString csv) (got url w)) as Hframe.
      rewrite Hrun1 in Hframe. by destruct Hframe as (_ & _ & _ & _ & _ & Hft & _).
    - by injection Hrun1 as _ <-. }
  destruct ((if opt_str_truthy csv
             then save_to_csv items (default EmptyString csv) else ret tt) (got url w))
    as [[[]| |] wb] eqn:Hrun_b;
    pose proof (Hcsv _ _ eq_refl) as Hfb;
    [|injection Hrun as _ <-; by apply Hone..].
  unfold bind at 1 in Hrun.
  assert (Hsql : ∀ r1 wc,
            (if opt_str_truthy sqlite
             then save_to_sqlite items (default EmptyString sqlite) else ret tt) wb
            = (r1, wc) →
            fetched (trace wc) = fetched (trace (got url w))).
  { intros r1 wc Hrun1. destruct (opt_str_truthy sqlite).
    - pose proof (save_to_sqlite_frame items (default EmptyString sqlite) wb) as Hframe.
      rewrite Hrun1 in Hframe. destruct Hframe as (_ & _ & _ & _ & _ & Hft & _).
      simpl in Hft. congruence.
    - injection Hrun1 as _ <-. done. }
  destruct ((if opt_str_truthy sqlite
             then save_to_sqlite items (default EmptyString sqlite) else ret tt) wb)
    as [[[]| |] wc] eqn:Hrun_c;
    pose proof (Hsql _ _ eq_refl) as Hfc;
    [|injection Hrun as _ <-; by apply Hone..].
  destruct (opt_int_truthy limit && (default 0 limit <=? page + 1));
    [injection Hrun as _ <-; by apply Hone|].
  destruct (negb (opt_str_truthy (next_of BeautifulSoup (site url))));
    [injection Hrun as _ <-; by apply Hone|].
  unfold bind at 1 in Hrun.
  pose proof (polite_delay_frame delay wc) as Hpause.
  destruct (polite_delay env delay wc) as [[[]| |] wd]; simpl in Hpause;
    destruct Hpause as (_ & _ & _ & _ & Hfd);
    [|injection Hrun as _ <-; apply Hone; congruence..].
  change (urljoin url (default EmptyString (next_of BeautifulSoup (site url))))
    with (page_url BeautifulSoup urljoin site (S k)) in Hrun.
  destruct (IH (S k) (page + 1) wd r w' Hrun) as (j & Hj & Hfetched).
  exists (S j). split; [lia|].
  rewrite Hfetched, Hfd, Hfc. simpl. rewrite fetched_app. simpl.
  by rewrite <- app_assoc.
Qed.

(** X11. Against a server that answers every GET with the page of the
    site, the GETs of a run are those of an initial stretch of the chain
    that starts at [BASE_URL] and follows each page's next reference, joined
    to the locator of the page it stands on: the pages are requested in
    chain order, none twice and none skipped, however the run ends. *)
Theorem scrape_fetches_chain_in_order site fuel limit delay user_agent csv sqlite verbose
    (w : World F) :
  serves env site →
  ∃ j, (j ≤ fuel)%nat
       ∧ fetched (trace (snd (scrape env BeautifulSoup urljoin fuel limit delay
                                user_agent csv sqlite verbose w)))
         = fetched (trace w) ++ map (page_url BeautifulSoup urljoin site) (seq 0 j).
Proof.
  intros Hserves.
  destruct (scrape env BeautifulSoup urljoin fuel limit delay user_agent csv sqlite
              verbose w) as [r w'] eqn:Hrun.
  unfold scrape, bind in Hrun. simpl.
  assert (Hinit : ∀ r0 wi,
            (if opt_str_truthy sqlite
             then init_sqlite (default EmptyString sqlite) else ret tt) w = (r0, wi) →
            fetched (trace wi) = fetched (trace w)).
  { intros r0 wi Hrun0. destruct (opt_str_truthy sqlite).
    - pose proof (init_sqlite_frame (default EmptyString sqlite) w) as Hframe.
      rewrite Hrun0 in Hframe. by destruct Hframe as (_ & _ & _ & _ & Hft).
    - by injection Hrun0 as _ <-. }
  destruct ((if opt_str_truthy sqlite
             then init_sqlite (default EmptyString sqlite) else ret tt) w)
    as [[[]| |] wi] eqn:Hrun_i;
    pose proof (Hinit _ _ eq_refl) as Hfi.
  - destruct (scrape_loop_fetches_chain site limit delay csv sqlite Hserves fuel 0%nat 0
                wi r w' Hrun) as (j & Hj & Hfetched).
    exists j. split; [done|]. by rewrite Hfetched, Hfi.
  - injection Hrun as _ <-. exists 0%nat. split; [lia|]. simpl. by rewrite app_nil_r.
  - injection Hrun as _ <-. exists 0%nat. split; [lia|]. simpl. by rewrite app_nil_r.
Qed.

(** The loop body up to the two [break] tests on a served page with ready
    sinks: one cycle is made without a random draw or a sleep, and what
    follows runs in the world the sinks left. *)
Lemma scrape_loop_persisted site fuel limit delay csv sqlite url page (w : World F) :
  serves env site →
  sinks_ready csv sqlite w →
  ∃ wc, sinks_ready csv sqlite wc ∧ cycles csv sqlite 1 w wc
    ∧ n_rand wc = n_rand w ∧ n_sleep wc = n_sleep w
    ∧ scrape_loop env BeautifulSoup urljoin (S fuel) limit delay csv sqlite url page w
      = (if opt_int_truthy limit && (default 0 limit <=? page + 1)
         then ret Reached_page_limit
         else if negb (opt_str_truthy (next_of BeautifulSoup (site url)))
         then ret No_next_page_link
         else bind (polite_delay env delay)
                (fun _ => scrape_loop env BeautifulSoup urljoin fuel limit delay csv
                            sqlite
                            (urljoin url
                               (default EmptyString (next_of BeautifulSoup (site url))))
                            (page + 1))) wc.
Proof.
  intros Hserves [Hcsv Hsql].
  destruct (parse_quotes_wf lxml (site url)) as (items & Hparse & Hwf).
  fold BeautifulSoup in Hparse.
  set (wa := got url w).
  assert (Hcsv_a : opt_str_truthy csv = true → can_append wa (default EmptyString csv))
    by (intros ?; by apply Hcsv).
  assert (Hsql_a : opt_str_truthy sqlite = true → db_initialised wa (default EmptyString sqlite))
    by (intros ?; by apply Hsql).
  assert (∃ wb, (if opt_str_truthy csv
                 then save_to_csv items (default EmptyString csv) else ret tt) wa
                = (Ok tt, wb)
                ∧ sinks_ready csv sqlite wb
                ∧ sink_step (if opt_str_truthy csv then 1 else 0) 0 wa wb
                ∧ n_rand wb = n_rand wa ∧ n_sleep wb = n_sleep wa)
    as (wb & Hrun_b & [Hcsv_b Hsql_b] & Hstep_b & Hrb & Hsb).
  { destruct (opt_str_truthy csv) eqn:Hc.
    - destruct (save_to_csv_ok items (default EmptyString csv) wa Hwf (Hcsv_a eq_refl))
        as (wb & Hrun & Hcan & Hd & Hstep).
      pose proof (save_to_csv_frame items (default EmptyString csv) wa) as Hframe.
      rewrite Hrun in Hframe. destruct Hframe as (_ & _ & Hr & Hs & _).
      exists wb. split; [done|]. split; [split|done].
      + by intros _.
      + intros Hs'. by apply (db_initialised_dbs wa), Hsql_a.
    - exists wa. split; [done|].
      split; [split; [intros ?; congruence|exact Hsql_a]|].
      split; [apply sink_step_refl|done]. }
  assert (∃ wc, (if opt_str_truthy sqlite
                 then save_to_sqlite items (default EmptyString sqlite) else ret tt) wb
                = (Ok tt, wc)
                ∧ sinks_ready csv sqlite wc
                ∧ sink_step 0 (if opt_str_truthy sqlite then 1 else 0) wb wc
                ∧ n_rand wc = n_rand wb ∧ n_sleep wc = n_sleep wb)
    as (wc & Hrun_c & Hready_c & Hstep_c & Hrc & Hsc).
  { destruct (opt_str_truthy sqlite) eqn:Hs.
    - destruct (save_to_sqlite_ok items (default EmptyString sqlite) wb Hwf (Hsql_b eq_refl))
        as (wc & Hrun & Hini & Hf & Hstep).
      pose proof (save_to_sqlite_frame items (default EmptyString sqlite) wb) as Hframe.
      rewrite Hrun in Hframe. destruct Hframe as (_ & _ & Hr & Hs' & _).
      exists wc. split; [done|]. split; [split|done].
      + intros Hc. by apply (can_append_fs wb), Hcsv_b.
      + by intros _.
    - exists wb. split; [done|].
      split; [split; [exact Hcsv_b|intros ?; congruence]|].
      split; [apply sink_step_refl|done]. }
  exists wc. split; [done|].
  split.
  { destruct Hstep_b as (Hg1 & Hc1 & Hv1 & Hq1), Hstep_c as (Hg2 & Hc2 & Hv2 & Hq2).
    unfold cycles. rewrite Hg2, Hg1, Hc2, Hc1, Hv2, Hv1, Hq2, Hq1.
    subst wa. unfold count_gets, count_csv_saves, count_sqlite_saves. simpl.
    rewrite !count_app. simpl.
    destruct (opt_str_truthy csv), (opt_str_truthy sqlite); repeat split; lia. }
  split; [by rewrite Hrc, Hrb|]. split; [by rewrite Hsc, Hsb|].
  cbn [scrape_loop].
  rewrite (bind_eq _ _ w (site url) wa) by by apply fetch_html_served.
  rewrite (bind_eq _ _ wa (items, next_of BeautifulSoup (site url)) wa)
    by (unfold lift; by rewrite Hparse).
  cbn [fst snd].
  by rewrite (bind_eq _ _ wa tt wb Hrun_b), (bind_eq _ _ wb tt wc Hrun_c).
Qed.

(** X12. A negative [limit_pages] given to [scrape] itself is no "no
    limit": the first page already reaches it, so the run makes exactly one
    cycle and stops at the limit, whether or not the page has a next
    link. *)
Theorem scrape_negative_limit_one_page site fuel L delay user_agent csv sqlite verbose
    (w : World F) :
  serves env site →
  destinations_ready csv sqlite w →
  L < 0 →
  ∃ w', scrape env BeautifulSoup urljoin (S fuel) (Some L) delay user_agent csv sqlite
          verbose w
        = (Ok Reached_page_limit, w')
        ∧ cycles csv sqlite 1 w w'.
Proof.
  intros Hserves Hdest HL.
  destruct (scrape_enters_loop env lxml urljoin (S fuel) (Some L) delay
              user_agent csv sqlite verbose w Hdest) as (w0 & Hready & Hc0 & Henter).
  fold BeautifulSoup in Henter. rewrite Henter.
  destruct (scrape_loop_persisted site fuel (Some L) delay csv sqlite BASE_URL 0 w0
              Hserves Hready) as (wc & _ & Hc1 & _ & _ & ->).
  assert (opt_int_truthy (Some L) && (default 0 (Some L) <=? 0 + 1) = true) as ->.
  { apply andb_true_iff. split; [apply negb_true_iff, Z.eqb_neq|apply Z.leb_le];
      simpl; lia. }
  exists wc. split; [done|]. by apply (cycles_trans _ _ 0 1 w w0 wc).
Qed.

(** X13. Ctrl-C during the polite delay after a page ends the run with
    [KeyboardInterrupt] after the batch of that page went to the configured
    sinks: one cycle is complete, and no further page is requested. *)
Theorem scrape_loop_interrupted_in_delay site fuel limit delay csv sqlite url page
    (w : World F) :
  serves env site →
  sinks_ready csv sqlite w →
  opt_int_truthy limit && (default 0 limit <=? page + 1) = false →
  opt_str_truthy (next_of BeautifulSoup (site url)) = true →
  f_truthy (polite_pause env delay (n_rand w)) = true →
  f_sleep_error (polite_pause env delay (n_rand w)) = None →
  sigint_in_sleep env (n_sleep w) = true →
  ∃ w', scrape_loop env BeautifulSoup urljoin (S fuel) limit delay csv sqlite url page w
        = (Raise (Exn KeyboardInterrupt EmptyString None), w')
        ∧ cycles csv sqlite 1 w w'.
Proof.
  intros Hserves Hready Hlimit Hnext Htruthy Hsleep Hsig.
  destruct (scrape_loop_persisted site fuel limit delay csv sqlite url page w
              Hserves Hready) as (wc & _ & Hc1 & Hrand & Hsl & ->).
  rewrite Hlimit, Hnext. cbn [negb].
  unfold polite_pause in Htruthy, Hsleep. rewrite <- Hrand in Htruthy, Hsleep.
  rewrite <- Hsl in Hsig.
  eexists. split.
  - apply bind_raise. unfold polite_delay, bind, random_uniform.
    rewrite Htruthy. unfold time_sleep. rewrite Hsleep. cbn [n_sleep].
    rewrite Hsig. reflexivity.
  - destruct Hc1 as (Hg & Hc & Hv & Hq). unfold cycles. simpl.
    unfold count_gets, count_csv_saves, count_sqlite_saves in *.
    rewrite !count_app. simpl. rewrite Hg, Hc, Hv, Hq.
    destruct (opt_str_truthy csv), (opt_str_truthy sqlite); repeat split; lia.
Qed.


(** X15. When the SQLite destination holds a file that is no database,
    [scrape] raises the [DatabaseError] of [init_sqlite] before any GET:
    nothing is fetched and nothing is written. *)
Theorem scrape_init_failure_fetches_nothing fuel limit delay user_agent csv sqlite
    verbose (w : World F) :
  opt_str_truthy sqlite = true →
  dbs w !! default EmptyString sqlite = Some NotADatabase →
  let r := scrape env BeautifulSoup urljoin fuel limit delay user_agent csv sqlite
             verbose w in
  fst r = Raise (Exn DatabaseError "file is not a database" None)
  ∧ n_get (snd r) = n_get w
  ∧ fs (snd r) = fs w ∧ dbs (snd r) = dbs w.
Proof.
  intros Hs Hdb r.
  assert (Heq : r = (Raise (Exn DatabaseError "file is not a database" None),
                     log_event (EvInitSqlite (default EmptyString sqlite)) w)).
  { subst r. unfold scrape. rewrite Hs. apply bind_raise.
    unfold init_sqlite. rewrite (bind_eq _ _ w tt (log_event _ w)) by done.
    apply bind_raise. unfold connect. simpl. by rewrite Hdb. }
  by rewrite Heq.
Qed.

(** X16. When the three attempts at a page all fail as transport
    failures, the loop raises the [RuntimeError] of [fetch_html] after three
    GETs, chained to the third failure, and no file or database changes:
    the defaults [retries=3], [backoff=1.5] are the ones [scrape] uses. *)
Theorem scrape_loop_unreachable_page fuel limit delay csv sqlite url page (w : World F) :
  uninterrupted env →
  waits_accepted env f_1_5 3 →
  transport_failures env url w 3 →
  (∀ k, (k < 3)%nat → ∀ b, attempt env url w k ≠ Ok b) →
  let r := scrape_loop env BeautifulSoup urljoin (S fuel) limit delay csv sqlite url
             page w in
  fst r = Raise (Exn RuntimeError (fetch_failed_msg url 3)
                     (last_failure env url w 3 None))
  ∧ n_get (snd r) = (n_get w + 3)%nat
  ∧ fs (snd r) = fs w ∧ dbs (snd r) = dbs w.
Proof.
  intros Hint Hwait Htrans Hfail r.
  destruct (fetch_html_loop_exhausted env url 3 f_1_5 3 Hint w 1 None)
    as (Hr & Hg & _ & tr & Htr & _); [| done | done |].
  { intros k n Hk. apply Hwait. lia. }
  destruct (fetch_html_attempts_bounded_aux env url w) as [Hfs Hdbs].
  unfold fetch_html in Hfs, Hdbs. change (Z.to_nat 3) with 3%nat in Hfs, Hdbs.
  destruct (fetch_html_loop env url 3 f_1_5 3 1 None w) as [r3 w3] eqn:Hrun.
  simpl in Hr, Hg, Htr, Hfs, Hdbs. subst r3.
  assert (Heq : r = (Raise (Exn RuntimeError (fetch_failed_msg url 3)
                              (last_failure env url w 3 None)), w3)).
  { subst r. cbn [scrape_loop]. apply bind_raise. unfold fetch_html.
    by change (Z.to_nat 3) with 3%nat. }
  rewrite Heq. simpl. repeat split; try done.
Qed.

End CrawlProperties.

(** ** The further properties on the fixtures *)




(** X6 on a path that holds nothing: [save_to_sqlite] without
    [init_sqlite] before it. *)
Lemma save_to_sqlite_without_table_fresh :
  fst (save_to_sqlite
         [[("quote", "So it goes."); ("author", "Kurt Vonnegut"); ("tags", EmptyString)]]
         "data.db" Fixture.empty_world)
  = Raise (Exn OperationalError "no such table: quotes" None).
Proof.
  destruct (save_to_sqlite_without_table
              [("quote", "So it goes."); ("author", "Kurt Vonnegut"); ("tags", EmptyString)]
              [] "data.db" Fixture.empty_world) as [Hr _].
  - repeat constructor.
  - left. reflexivity.
  - exact Hr.
Defined.

(** X11 on the site of two pages. *)
Lemma scrape_fetches_chain_in_order_two_pages :
  ∃ j, (j ≤ 10)%nat
       ∧ fetched (trace (snd (scrape (Fixture.env_of Fixture.two_pages) Fixture.lxml
                                Fixture.urljoin 10 None 1%Q None (Some "data.csv")
                                (Some "data.db") false Fixture.empty_world)))
         = map (page_url Fixture.lxml Fixture.urljoin
                  (fun url => if String.eqb url BASE_URL then "page 1" else "page 2"))
               (seq 0 j).
Proof.
  apply (scrape_fetches_chain_in_order (Fixture.env_of Fixture.two_pages) Fixture.parsed
           Fixture.urljoin
           (fun url => if String.eqb url BASE_URL then "page 1" else "page 2")
           10 None 1%Q None (Some "data.csv") (Some "data.db") false
           Fixture.empty_world).
  intros n url. eexists. repeat split; reflexivity.
Defined.

(** X12 on the endless site with a limit of -1. *)
Lemma scrape_negative_limit_one_page_endless :
  ∃ w', scrape (Fixture.env_of Fixture.endless) Fixture.lxml Fixture.urljoin 1
          (Some (-1)) 1%Q None (Some "data.csv") (Some "data.db") false
          Fixture.empty_world
        = (Ok Reached_page_limit, w')
        ∧ cycles (Some "data.csv") (Some "data.db") 1 Fixture.empty_world w'.
Proof.
  apply (scrape_negative_limit_one_page (Fixture.env_of Fixture.endless) Fixture.parsed
           Fixture.urljoin (fun _ => "page 1") 0 (-1) 1%Q None (Some "data.csv")
           (Some "data.db") false Fixture.empty_world).
  - intros n url. eexists. repeat split; reflexivity.
  - split; intros _; [intros f Hf; vm_compute in Hf; discriminate | exact I].
  - lia.
Defined.

(** X13 on the endless site with a user who interrupts the first pause. *)
Lemma scrape_loop_interrupted_in_delay_impatient :
  ∃ w', scrape_loop (Fixture.impatient Fixture.endless) Fixture.lxml Fixture.urljoin 1
          None 1%Q (Some "data.csv") None BASE_URL 0 Fixture.empty_world
        = (Raise (Exn KeyboardInterrupt EmptyString None), w')
        ∧ cycles (Some "data.csv") None 1 Fixture.empty_world w'.
Proof.
  apply (scrape_loop_interrupted_in_delay (Fixture.impatient Fixture.endless)
           Fixture.parsed Fixture.urljoin (fun _ => "page 1") 0 None 1%Q
           (Some "data.csv") None BASE_URL 0 Fixture.empty_world).
  - intros n url. eexists. repeat split; reflexivity.
  - split; [intros _ f Hf; vm_compute in Hf; discriminate | intros Hs; discriminate].
  - reflexivity.
  - reflexivity.
  - reflexivity.
  - reflexivity.
  - reflexivity.
Defined.


(** X15 on a destination that holds a file of another kind. *)
Lemma scrape_init_failure_fetches_nothing_other_file :
  fst (scrape (Fixture.env_of Fixture.two_pages) Fixture.lxml Fixture.urljoin 10 None
         1%Q None (Some "data.csv") (Some "data.db") false Fixture.not_a_database)
  = Raise (Exn DatabaseError "file is not a database" None).
Proof.
  destruct (scrape_init_failure_fetches_nothing (Fixture.env_of Fixture.two_pages)
              Fixture.parsed Fixture.urljoin 10 None 1%Q None (Some "data.csv")
              (Some "data.db") false Fixture.not_a_database) as [Hr _].
  - reflexivity.
  - reflexivity.
  - exact Hr.
Defined.

(** X16 against a server that is down. *)
Lemma scrape_loop_unreachable_page_down :
  fst (scrape_loop (Fixture.env_of Fixture.down) Fixture.lxml Fixture.urljoin 1 None
         1%Q (Some "data.csv") None BASE_URL 0 Fixture.empty_world)
  = Raise (Exn RuntimeError (fetch_failed_msg BASE_URL 3)
             (Some (Exn ConnectionError "connection refused" None))).
Proof.
  destruct (scrape_loop_unreachable_page (Fixture.env_of Fixture.down) Fixture.parsed
              Fixture.urljoin 0 None 1%Q (Some "data.csv") None BASE_URL 0
              Fixture.empty_world) as [Hr _].
  - intros n. reflexivity.
  - intros k n Hk. unfold backoff_wait. simpl. eexists. split; [reflexivity|].
    assert (k = 1 ∨ k = 2 ∨ k = 3) as [-> | [-> | ->]] by lia; reflexivity.
  - intros k e Hk. unfold attempt. simpl. intros He. by injection He as <-.
  - intros k Hk b. discriminate.
  - exact Hr.
Defined.
